(** * iorap: package-version cache, tracing-session tracker, compilation controller

    A shallow embedding of
      - [src/binder/package_version_map.cc]   (module [PackageVersionMap]),
      - [src/perfetto/perfetto_consumer.cc]   (module [PerfettoConsumer]),
      - [src/maintenance/controller.cc]       (module [Controller]),
    followed by the properties of each.

    Conventions.  Fixed-width integers are carried by [Z]; where the source
    relies on their width (increment of a counter, comparison of sizes) the
    range is written out.  Every [LOG(...)] statement becomes one structured
    log entry; [LOG(FATAL)] and a failed [CHECK] end the process.  Code running
    under a [std::lock_guard] is modelled as its critical section; only the
    [try_lock] of the two [Dump] functions observes the mutex. *)

From stdpp Require Import base option list strings gmap pretty sorting.
From Stdlib Require Import ZArith Lia.

Local Open Scope Z_scope.

(** ** Shared vocabulary *)

Inductive Severity := VERBOSE | DEBUG | INFO | WARNING | ERROR | FATAL.

#[global] Instance Severity_eq_dec : EqDecision Severity.
Proof. solve_decision. Defined.

(** [int64_t], [uint64_t] and [size_t] bounds. *)
Definition INT64_MAX : Z := 2 ^ 63 - 1.
Definition UINT64_MAX : Z := 2 ^ 64 - 1.
Definition SIZE_MAX : Z := 2 ^ 64 - 1.

(** Unsigned 64-bit increment, as [x++] on a [size_t]. *)
Definition size_incr (x : Z) : Z := (x + 1) mod 2 ^ 64.

(** [std::mutex] as seen by the thread that runs the code below: free, held
    by this thread, or held by some other thread. *)
Inductive Mutex := MutexFree | MutexHeldHere | MutexHeldElsewhere.

(** [try_lock] never blocks: it reports whether the lock was taken. *)
Definition try_lock (m : Mutex) : bool * Mutex :=
  match m with
  | MutexFree => (true, MutexHeldHere)
  | MutexHeldHere => (false, MutexHeldHere)
  | MutexHeldElsewhere => (false, MutexHeldElsewhere)
  end.

Definition unlock (m : Mutex) : Mutex :=
  match m with
  | MutexHeldHere => MutexFree
  | other => other
  end.

(** A line of a report mentions a possible deadlock. *)
Definition mentions_deadlock (line : string) : bool :=
  match String.index 0 "possible deadlock" line with
  | Some _ => true
  | None => false
  end.

(** ** binder/package_version_map.cc *)

Module PackageVersionMap.

  (** [PackageManagerRemote]: the binder proxy of the package manager.  Only
      its two queries are used here; both may change the remote's state. *)
Class PackageManagerRemote := {
    Remote : Type;
    GetPackageVersionMap : Remote -> gmap string Z * Remote;
    GetPackageVersion : Remote -> string -> option Z * Remote;
  }.

Inductive Msg :=
  | UpdateDone (old_size new_size : nat)
  | CannotFindInTable (package_name : string)
  | FoundOnTheFly (package_name : string)
  | CannotFindOnTheFly (package_name : string).

  (** Calls that reached the remote, oldest first. *)
Inductive RemoteCall :=
  | QueryAll
  | QueryOne (package_name : string).

Section WithRemote.
Context `{PackageManagerRemote}.

Record t := mk {
      package_manager_ : Remote;
      version_map_ : gmap string Z;
      remote_calls : list RemoteCall;
      log : list (Severity * Msg);
    }.

Definition LOG (sev : Severity) (m : Msg) (s : t) : t :=
      mk (package_manager_ s) (version_map_ s) (remote_calls s) (log s ++ [(sev, m)]).

    (** [PackageVersionMap::Create]: [None] when the remote cannot be
        obtained. *)
Definition Create (package_manager : option Remote) : option t :=
      match package_manager with
      | None => None
      | Some pm =>
          let '(map, pm') := GetPackageVersionMap pm in
          Some (mk pm' map [QueryAll] [])
      end.

Definition Update (s : t) : t :=
      let old_size := size (version_map_ s) in
      let '(map, pm') := GetPackageVersionMap (package_manager_ s) in
      LOG DEBUG (UpdateDone old_size (size map))
          (mk pm' map (remote_calls s ++ [QueryAll]) (log s)).

Definition Size (s : t) : nat := size (version_map_ s).

Definition GetOrQueryPackageVersion (package_name : string) (s : t) : Z * t :=
      match version_map_ s !! package_name with
      | None =>
          let s := LOG WARNING (CannotFindInTable package_name) s in
          let '(version, pm') := GetPackageVersion (package_manager_ s) package_name in
          let s := mk pm' (version_map_ s)
                      (remote_calls s ++ [QueryOne package_name]) (log s) in
          match version with
          | Some v =>
              let s := LOG VERBOSE (FoundOnTheFly package_name) s in
              (v, mk (package_manager_ s) (<[package_name := v]> (version_map_ s))
                     (remote_calls s) (log s))
          | None =>
              let s := LOG ERROR (CannotFindOnTheFly package_name) s in
              (-1, s)
          end
      | Some v => (v, s)
      end.

End WithRemote.

Arguments t {_}.

(** A remote for tests.  Its state is two tables: the packages it lists in
    a snapshot, and the packages it knows when asked for one by name. *)
Definition table_remote : PackageManagerRemote := {|
  Remote := gmap string Z * gmap string Z;
  GetPackageVersionMap := fun r => (r.1, r);
  GetPackageVersion := fun r name => (r.2 !! name, r);
|}.

End PackageVersionMap.


(** ** perfetto/perfetto_consumer.cc *)

Module PerfettoConsumer.

(** [PerfettoConsumer::Handle] is [int64_t]; [PerfettoConsumer::State] is the
    engine's state enumeration, only ever stored and printed as an [int]. *)
Definition Handle := Z.
Definition State := Z.
Definition TraceBuffer := list Byte.byte.

Inductive StateKind :=
| kUncreated
| kCreated
| kStartedTracing
| kReadTracing
| kTimedOutDestroyed
| kDestroyed.

#[global] Instance StateKind_eq_dec : EqDecision StateKind.
Proof. solve_decision. Defined.

Definition ToString (kind : StateKind) : string :=
  match kind with
  | kUncreated => "kUncreated"
  | kCreated => "kCreated"
  | kStartedTracing => "kStartedTracing"
  | kReadTracing => "kReadTracing"
  | kTimedOutDestroyed => "kTimedOutDestroyed"
  | kDestroyed => "kDestroyed"
  end.

Record HandleDescription := mkDesc {
  handle_ : Handle;
  kind_ : StateKind;
  state_ : State;
  started_tracing_ns_ : option Z;
  last_transition_ns_ : Z;
}.

(** The raw engine ([PerfettoConsumerRawImpl]) together with the realtime
    clock, and the interface constant [PerfettoConsumer::kInvalidHandle],
    which the header declares.  The callback and its argument given to
    [Create] are opaque to the tracker and are left out. *)
Class PerfettoConsumerRaw := {
  kInvalidHandle : Handle;
  Raw : Type;
  raw_Create : Raw -> list Byte.byte -> Handle * Raw;
  raw_StartTracing : Raw -> Handle -> Raw;
  raw_ReadTrace : Raw -> Handle -> TraceBuffer * Raw;
  raw_Destroy : Raw -> Handle -> Raw;
  raw_PollState : Raw -> Handle -> State;
  (** [clock_gettime(CLOCK_REALTIME)]: seconds and nanoseconds. *)
  clock_gettime : Raw -> Z * Z;
}.

Inductive Msg :=
| MsgCreate (config_len : nat)
| MsgStartTracing (handle : Handle)
| CannotStartTracing (handle : Handle)
| MsgReadTrace (handle : Handle)
| CannotReadTrace (handle : Handle)
| MsgDestroy (handle : Handle)
| CannotDestroy (handle : Handle)
| BadStateDetection.

(** What ends the process inside the tracker. *)
Inductive Failure :=
| HandleUnexpected (last_created handle : Handle)
| HandleReused (handle : Handle)
| SignedOverflow.

Inductive Outcome (A : Type) :=
| Ok (a : A)
| Aborted (why : Failure).
Arguments Ok {A} a.
Arguments Aborted {A} why.

(** The key order of [std::map<Handle, HandleDescription>]. *)
Definition key_le (a b : Handle * HandleDescription) : Prop := a.1 <= b.1.

#[global] Instance key_le_dec : RelDecision key_le.
Proof. intros a b. unfold key_le. apply _. Defined.

Section WithRaw.
Context `{PerfettoConsumerRaw}.

Record Impl := mkImpl {
  raw_ : Raw;
  states_ : gmap Handle HandleDescription;
  last_created_ : Handle;
  last_destroyed_ : Handle;
  log : list (Severity * Msg);
}.

(** [Impl()] over a given engine. *)
Definition init (raw : Raw) : Impl := mkImpl raw ∅ 0 0 [].

Definition LOG (sev : Severity) (m : Msg) (s : Impl) : Impl :=
  mkImpl (raw_ s) (states_ s) (last_created_ s) (last_destroyed_ s) (log s ++ [(sev, m)]).

Definition set_raw (raw : Raw) (s : Impl) : Impl :=
  mkImpl raw (states_ s) (last_created_ s) (last_destroyed_ s) (log s).

Definition set_states (m : gmap Handle HandleDescription) (s : Impl) : Impl :=
  mkImpl (raw_ s) m (last_created_ s) (last_destroyed_ s) (log s).

Definition set_last_created (h : Handle) (s : Impl) : Impl :=
  mkImpl (raw_ s) (states_ s) h (last_destroyed_ s) (log s).

Definition set_last_destroyed (h : Handle) (s : Impl) : Impl :=
  mkImpl (raw_ s) (states_ s) (last_created_ s) h (log s).

Definition GetTimeNanoseconds (raw : Raw) : Z :=
  let '(tv_sec, tv_nsec) := clock_gettime raw in
  (tv_sec * 1000000000 + tv_nsec) mod 2 ^ 64.

Definition UpdateHandleDescription (raw : Raw) (handle_desc : HandleDescription)
    (kind : StateKind) : HandleDescription :=
  let state := raw_PollState raw (handle_ handle_desc) in
  let now := GetTimeNanoseconds raw in
  mkDesc (handle_ handle_desc) kind state
         (if decide (kind = kStartedTracing) then Some now
          else started_tracing_ns_ handle_desc)
         now.

(** [Create].  The local [handle_desc] starts out uninitialised, but every
    scalar field is written before it is stored; the optional starts empty. *)
Definition Create (config : list Byte.byte) (s : Impl) : Outcome (Handle * Impl) :=
  let s := LOG VERBOSE (MsgCreate (length config)) s in
  let '(handle, raw) := raw_Create (raw_ s) config in
  let s := set_raw raw s in
  if bool_decide (last_created_ s = INT64_MAX) then Aborted SignedOverflow
  else
    let s := set_last_created (last_created_ s + 1) s in
    if negb (bool_decide (last_created_ s = handle))
    then Aborted (HandleUnexpected (last_created_ s) handle)
    else
      let handle_desc :=
        UpdateHandleDescription (raw_ s) (mkDesc handle kUncreated 0 None 0) kCreated in
      if negb (bool_decide (states_ s !! handle = None))
      then Aborted (HandleReused handle)
      else Ok (handle, set_states (<[handle := handle_desc]> (states_ s)) s).

Definition StartTracing (handle : Handle) (s : Impl) : Impl :=
  let s := LOG DEBUG (MsgStartTracing handle) s in
  match states_ s !! handle with
  | None => LOG ERROR (CannotStartTracing handle) s
  | Some handle_desc =>
      let s := set_raw (raw_StartTracing (raw_ s) handle) s in
      let handle_desc := UpdateHandleDescription (raw_ s) handle_desc kStartedTracing in
      set_states (<[handle := handle_desc]> (states_ s)) s
  end.

Definition ReadTrace (handle : Handle) (s : Impl) : TraceBuffer * Impl :=
  let s := LOG DEBUG (MsgReadTrace handle) s in
  match states_ s !! handle with
  | None => ([], LOG ERROR (CannotReadTrace handle) s)
  | Some handle_desc =>
      let '(trace_buffer, raw) := raw_ReadTrace (raw_ s) handle in
      let s := set_raw raw s in
      let handle_desc := UpdateHandleDescription (raw_ s) handle_desc kReadTracing in
      (trace_buffer, set_states (<[handle := handle_desc]> (states_ s)) s)
  end.

Definition Destroy (handle : Handle) (s : Impl) : Impl :=
  let s := LOG VERBOSE (MsgDestroy handle) s in
  match states_ s !! handle with
  | None => LOG ERROR (CannotDestroy handle) s
  | Some handle_desc =>
      let s := set_raw (raw_Destroy (raw_ s) handle) s in
      let handle_desc := UpdateHandleDescription (raw_ s) handle_desc kDestroyed in
      let s := set_states (<[handle := handle_desc]> (states_ s)) s in
      let s := set_last_destroyed handle s in
      set_states (delete handle (states_ s)) s
  end.

Definition PollState (handle : Handle) (s : Impl) : State :=
  raw_PollState (raw_ s) handle.

(** Smallest and largest tracked handle: [states_.begin()->first] and
    [states_.rbegin()->first]. *)
Definition min_tracked (s : Impl) : option Handle :=
  match (map_to_list (states_ s)).*1 with
  | [] => None
  | k :: ks => Some (foldr Z.min k ks)
  end.

Definition max_tracked (s : Impl) : option Handle :=
  match (map_to_list (states_ s)).*1 with
  | [] => None
  | k :: ks => Some (foldr Z.max k ks)
  end.

(** [IsDestroyed], statement by statement.  The two comparisons against the
    extreme tracked handles dereference [begin()] and [rbegin()]; on an empty
    map that has no defined value, rendered here as [false]. *)
Definition IsDestroyed (s : Impl) (handle : Handle) : bool :=
  let it := states_ s !! handle in
  if negb (bool_decide (it = None)) then false
  else if bool_decide (handle = kInvalidHandle) then false
  else if bool_decide (it = None) then bool_decide (handle <= last_destroyed_ s)
  else if from_option (fun m => bool_decide (handle < m)) false (min_tracked s) then true
  else if from_option (fun m => bool_decide (handle > m)) false (max_tracked s) then false
  else true.

Definition IsUncreated (s : Impl) (handle : Handle) : bool :=
  let it := states_ s !! handle in
  if negb (bool_decide (it = None)) then false
  else if bool_decide (handle = kInvalidHandle) then true
  else if bool_decide (it = None) then bool_decide (handle > last_destroyed_ s)
  else if from_option (fun m => bool_decide (handle < m)) false (min_tracked s) then false
  else if from_option (fun m => bool_decide (handle > m)) false (max_tracked s) then true
  else false.

(** [GetOrInferHandleDescription].  For an untracked handle the local
    [HandleDescription state;] is not initialised: its scalar fields hold
    whatever [indeterminate] was in that storage, its optional is empty.  Only
    the destroyed branch writes to it. *)
Definition GetOrInferHandleDescription (indeterminate : HandleDescription)
    (handle : Handle) (s : Impl) : HandleDescription * Impl :=
  match states_ s !! handle with
  | None =>
      let state :=
        mkDesc (handle_ indeterminate) (kind_ indeterminate) (state_ indeterminate)
               None (last_transition_ns_ indeterminate) in
      if IsDestroyed s handle then
        (UpdateHandleDescription (raw_ s) state kDestroyed, s)
      else if negb (IsUncreated s handle) then
        (state, LOG WARNING BadStateDetection s)
      else (state, s)
  | Some handle_desc => (handle_desc, s)
  end.

(** The three answers the inference can give for an untracked handle, read
    off the branches of [GetOrInferHandleDescription]: it marks the
    description destroyed; or it leaves it alone because [IsUncreated] holds;
    or it warns about a bad state. *)
Inductive Inferred := InferDestroyed | InferUncreated | InferBadState.

Definition infer (s : Impl) (handle : Handle) : Inferred :=
  if IsDestroyed s handle then InferDestroyed
  else if negb (IsUncreated s handle) then InferBadState
  else InferUncreated.

(** Tracked entries in the iteration order of [std::map]: ascending handle. *)
Definition entries (s : Impl) : list (Handle * HandleDescription) :=
  merge_sort key_le (map_to_list (states_ s)).

Definition DumpEntry (handle_desc : HandleDescription) : list string :=
  let started_tracing := default 0 (started_tracing_ns_ handle_desc) in
  [ "    Handle " +:+ pretty (handle_ handle_desc);
    "      Kind: " +:+ ToString (kind_ handle_desc);
    "      Perfetto State: " +:+ pretty (state_ handle_desc);
    "      Started tracing at: " +:+ pretty started_tracing;
    "      Last transition at: " +:+ pretty (last_transition_ns_ handle_desc) ].

(** [Dump]: the lines given to the printer, and the mutex afterwards. *)
Definition Dump (mutex_ : Mutex) (s : Impl) : list string * Mutex :=
  let '(is_it_locked, mutex_) := try_lock mutex_ in
  let lines :=
    [ "Perfetto consumer state:";
      "  Last destroyed handle: " +:+ pretty (last_destroyed_ s);
      "  Last created handle: " +:+ pretty (last_created_ s);
      EmptyString;
      "  In-flight handles:" ]
    ++ flat_map (fun e => DumpEntry e.2) (entries s)
    ++ (if bool_decide (states_ s = ∅) then ["    (None)"] else [])
    ++ [ EmptyString ] in
  (lines, if is_it_locked then unlock mutex_ else mutex_).

(** Operations of the public interface that change the tracker. *)
Inductive Op :=
| OpCreate (config : list Byte.byte)
| OpStartTracing (handle : Handle)
| OpReadTrace (handle : Handle)
| OpDestroy (handle : Handle).

Definition step (op : Op) (s : Impl) : Outcome Impl :=
  match op with
  | OpCreate config =>
      match Create config s with
      | Ok (_, s') => Ok s'
      | Aborted why => Aborted why
      end
  | OpStartTracing handle => Ok (StartTracing handle s)
  | OpReadTrace handle => Ok (ReadTrace handle s).2
  | OpDestroy handle => Ok (Destroy handle s)
  end.

Fixpoint run (ops : list Op) (s : Impl) : Outcome Impl :=
  match ops with
  | [] => Ok s
  | op :: ops' =>
      match step op s with
      | Ok s' => run ops' s'
      | Aborted why => Aborted why
      end
  end.

(** States the tracker can be in: those some sequence of operations reaches
    from a fresh tracker. *)
Definition reachable (s : Impl) : Prop :=
  exists raw ops, run ops (init raw) = Ok s.

(** The tracker after [ops] on a fresh tracker over [raw]; a run that aborts
    leaves no tracker, and the fresh one stands in. *)
Definition after (ops : list Op) (raw : Raw) : Impl :=
  match run ops (init raw) with
  | Ok s => s
  | Aborted _ => init raw
  end.

(** The kinds a tracked session can have: the ones [Create], [StartTracing]
    and [ReadTrace] assign. *)
Definition live (kind : StateKind) : bool :=
  match kind with
  | kCreated | kStartedTracing | kReadTracing => true
  | _ => false
  end.

(** What every operation keeps: the counters are ordered, and each entry of
    the map sits under its own handle, was issued by a [Create], and has a
    live kind. *)
Definition tracker_invariant (s : Impl) : Prop :=
  0 <= last_destroyed_ s <= last_created_ s
  /\ forall h d,
       states_ s !! h = Some d ->
       handle_ d = h /\ 1 <= h <= last_created_ s /\ live (kind_ d) = true.

(** Two trackers that differ at most in their logs. *)
Definition same_but_log (s1 s2 : Impl) : Prop :=
  raw_ s1 = raw_ s2
  /\ states_ s1 = states_ s2
  /\ last_created_ s1 = last_created_ s2
  /\ last_destroyed_ s1 = last_destroyed_ s2.

(** The number of [Create] operations in a sequence. *)
Definition is_create (op : Op) : bool :=
  match op with
  | OpCreate _ => true
  | _ => false
  end.

Definition creates (ops : list Op) : nat := length (List.filter is_create ops).

(** Every tracked handle was issued by a [Create] that passed its check. *)
Definition tracked_below_last_created (s : Impl) : Prop :=
  0 <= last_created_ s
  /\ forall h d, states_ s !! h = Some d -> 1 <= h <= last_created_ s.

End WithRaw.

Arguments Impl {_}.

(** An engine for tests: it hands out the handles of a script, in order, and
    reports state [0] at time [0].  [kInvalidHandle] is [-1], the value of the
    engine's public header. *)
Definition scripted_engine : PerfettoConsumerRaw := {|
  kInvalidHandle := -1;
  Raw := list Handle;
  raw_Create := fun script _ =>
    match script with
    | [] => (-1, [])
    | h :: script' => (h, script')
    end;
  raw_StartTracing := fun script _ => script;
  raw_ReadTrace := fun script _ => ([], script);
  raw_Destroy := fun script _ => script;
  raw_PollState := fun _ _ => 0;
  clock_gettime := fun _ => (0, 0);
|}.

End PerfettoConsumer.


(** ** maintenance/controller.cc *)

Module Controller.

(** *** Rows of the store *)

(** Modelled from the spec: the row types of [db/models.h], which is not
    part of the sources at hand.  Section 3 lists their fields; the controller
    reads exactly these. *)
Module PackageModel.
Record t := mk { id : Z; name : string; version : Z }.
End PackageModel.

Module ActivityModel.
Record t := mk { id : Z; name : string; package_id : Z }.
End ActivityModel.

Module AppLaunchHistoryModel.
Record t := mk {
  id : Z;
  activity_id : Z;
  total_time_ns : option Z;
  report_fully_drawn_ns : option Z;
}.
End AppLaunchHistoryModel.

Module RawTraceModel.
Record t := mk { id : Z; history_id : Z; file_path : string }.
End RawTraceModel.

Module PrefetchFileModel.
Record t := mk { id : Z; activity_id : Z; file_path : string }.
End PrefetchFileModel.

(** Modelled from the spec: [compiler::CompilationInput] of
    [compiler/compiler.h], the pair of section 3. *)
Record CompilationInput := mkInput {
  filename : string;
  timestamp_limit_ns : Z;
}.

(** Modelled from the spec: [ControllerParameters] of
    [maintenance/controller.h], with the fields of section 4.4 that the
    controller reads.  Its [exec] member is part of the [Platform] below;
    [min_traces] is an unsigned count, compared with a vector size. *)
Record ControllerParameters := mkParams {
  output_text : bool;
  inode_textcache : option string;
  verbose : bool;
  recompile : bool;
  min_traces : N;
}.

Definition kMinTracesForCompilation : nat := 3.

Record LastJobInfo := mkJob {
  last_run_ns_ : Z;
  activities_last_compiled_ : Z;
}.

Definition kCommandFileName : string := "/system/bin/iorap.cmd.compiler".

(** *** What the controller calls but does not define

    The store facade, the file system, the [exec] object of the parameters
    ([Fork], [Execve]) and the C library.  Everything outside the process is
    the [World]; queries read it, the other calls may change it. *)
Class Platform := {
  World : Type;
  DbHandle : Type;
  SchemaModel_GetOrCreate : string -> World -> DbHandle * World;
  PackageModel_SelectAll : DbHandle -> World -> list PackageModel.t;
  PackageModel_SelectByNameAndVersion :
    DbHandle -> string -> Z -> World -> option PackageModel.t;
  ActivityModel_SelectByPackageId : DbHandle -> Z -> World -> list ActivityModel.t;
  ActivityModel_SelectByNameAndPackageId :
    DbHandle -> string -> Z -> World -> option ActivityModel.t;
  AppLaunchHistoryModel_SelectActivityHistoryForCompile :
    DbHandle -> Z -> World -> list AppLaunchHistoryModel.t;
  RawTraceModel_SelectByHistoryId : DbHandle -> Z -> World -> option RawTraceModel.t;
  PrefetchFileModel_Insert :
    DbHandle -> Z -> string -> World -> option PrefetchFileModel.t * World;
  PrefetchFileModel_SelectByVersionedComponentName :
    DbHandle -> string -> string -> Z -> World -> option PrefetchFileModel.t;
  (** [CompiledTraceFileModel::CalculateNewestFilePath(vcn).FilePath()] *)
  CompiledTraceFileModel_FilePath : string -> string -> Z -> string;
  CompiledTraceFileModel_MkdirWithParents : string -> World -> bool * World;
  filesystem_exists : string -> World -> bool;
  (** [std::filesystem::last_write_time]: an error message or a [time_t]. *)
  filesystem_last_write_time : string -> World -> string + Z;
  ReadAhead_PrefetchSizeInBytes : string -> World -> option Z;
  Fork : World -> Z * World;
  (** [Execve] gives [None] when the process image was replaced, and the
      returned [int] when the call came back. *)
  Execve : string -> list string -> World -> option Z * World;
  (** [waitpid(child, &wstatus, 0)]: the status word. *)
  waitpid : Z -> World -> Z * World;
  time : World -> Z;
  (** [localtime_r] followed by [strftime]; [None] when [localtime_r] fails. *)
  strftime_localtime : Z -> option string;
}.

(** <sys/wait.h>, as the Linux C libraries define the macros. *)
Definition WTERMSIG (wstatus : Z) : Z := Z.land wstatus 127.
Definition WIFEXITED (wstatus : Z) : bool := WTERMSIG wstatus =? 0.
Definition WEXITSTATUS (wstatus : Z) : Z := Z.shiftr (Z.land wstatus 65280) 8.

Inductive Msg :=
| FailedToFork
| ForkedInto (child : Z)
| ChildTerminatedAbnormally (status : Z)
| ChildTerminated (status : Z)
| ForkExec (command : string) (argv : list string)
| CannotFindRawTrace (history_id : Z)
| NoTimestampExists
| CompiledTraceExists (file_path : string)
| CannotFindActivity (package_id : Z) (activity_name : string)
| TooFewTraces (have : nat) (min_traces : N)
| TryToCompile (package_id : Z) (package_name activity_name : string) (version : Z)
    (file_path : string) (verbose : bool) (perfetto_traces : list CompilationInput)
| InodeTextcache (path : string)
| FailedToMkdirs (file_path : string)
| CompilationFailed (package_id : Z) (activity_name : string)
| CannotInsertCompiledTrace (activity_id : Z) (file_path : string)
| CannotFindPackage (package_name : string) (version : Z)
| CannotFindPackageWithName (package_name : string) (version : Z).

(** Calls that can change the world, newest first. *)
Inductive Call :=
| CallGetOrCreate (db_path : string)
| CallMkdirWithParents (file_path : string)
| CallFork
| CallWaitpid (child : Z)
| CallExecve (pathname : string) (argv : list string)
| CallInsert (activity_id : Z) (file_path : string).

#[global] Instance Call_eq_dec : EqDecision Call.
Proof. solve_decision. Defined.

(** Why a process stops without returning to its caller. *)
Inductive Stop := FatalLog | ImageReplaced.

(** Represents the parameters used when fork+exec compiler. *)
Record CompilerForkParameters := mkFork {
  input_pbs : list string;
  fork_timestamp_limit_ns : list Z;
  output_proto : string;
  controller_params : ControllerParameters;
}.

Definition CompilerForkParameters_new (perfetto_traces : list CompilationInput)
    (output_proto : string) (controller_params : ControllerParameters)
    : CompilerForkParameters :=
  mkFork (filename <$> perfetto_traces) (timestamp_limit_ns <$> perfetto_traces)
         output_proto controller_params.

(** Modelled from the spec: [common::AppendArgsRepeatedly] and
    [common::AppendArgs] of [common/cmd_utils.h], which section 6 describes by
    the argument vector they produce: the values one after the other, or each
    value preceded by its flag. *)
Definition AppendArgsRepeatedly (argv : list string) (values : list string) : list string :=
  argv ++ values.

Definition AppendArgsRepeatedlyFlag (argv : list string) (flag : string)
    (values : list Z) : list string :=
  argv ++ flat_map (fun v => [flag; pretty v]) values.

Definition AppendArgs (argv : list string) (flag value : string) : list string :=
  argv ++ [flag; value].

Definition MakeCompilerParams (params : CompilerForkParameters) : list string :=
  let controller_params := controller_params params in
  let argv := AppendArgsRepeatedly [] (input_pbs params) in
  let argv := AppendArgsRepeatedlyFlag argv "--timestamp_limit_ns"
                (fork_timestamp_limit_ns params) in
  let argv := if output_text controller_params then argv ++ ["--output-text"] else argv in
  let argv := AppendArgs argv "--output-proto" (output_proto params) in
  let argv := match inode_textcache controller_params with
              | Some path => AppendArgs argv "--inode-textcache" path
              | None => argv
              end in
  if verbose controller_params then argv ++ ["--verbose"] else argv.

Section WithPlatform.
Context `{Platform}.

(** The process: the world around it, the global [last_job_info_], and what
    it has logged and called so far. *)
Record Sys := mkSys {
  world : World;
  last_job_info_ : LastJobInfo;
  log : list (Severity * Msg);
  calls : list Call;
}.

Inductive Result (A : Type) :=
| Returned (a : A) (s : Sys)
| Stopped (why : Stop) (s : Sys).
Arguments Returned {A} a s.
Arguments Stopped {A} why s.

Definition final {A} (r : Result A) : Sys :=
  match r with Returned _ s => s | Stopped _ s => s end.

(** Computations of the controller. *)
Definition M (A : Type) : Type := Sys -> Result A.

Definition ret {A} (a : A) : M A := fun s => Returned a s.

Definition bind {A B} (m : M A) (k : A -> M B) : M B :=
  fun s =>
    match m s with
    | Returned a s' => k a s'
    | Stopped why s' => Stopped why s'
    end.

Notation "'do' x <- m ; k" := (bind m (fun x => k))
  (at level 10, x name, m at level 100, k at level 200).
Notation "m ;; k" := (bind m (fun _ => k))
  (at level 100, k at level 200, right associativity).

(** The process state after logging, after a call that left the world as
    [w], and with the job record replaced. *)
Definition logged (s : Sys) (entries : list (Severity * Msg)) : Sys :=
  mkSys (world s) (last_job_info_ s) (log s ++ entries) (calls s).

Definition called (s : Sys) (c : Call) (w : World) : Sys :=
  mkSys w (last_job_info_ s) (log s) (c :: calls s).

Definition with_job (s : Sys) (j : LastJobInfo) : Sys :=
  mkSys (world s) j (log s) (calls s).

Definition LOG (sev : Severity) (m : Msg) : M unit :=
  fun s => Returned tt (logged s [(sev, m)]).

(** [LOG(FATAL)] logs and aborts. *)
Definition LOG_FATAL {A} (m : Msg) : M A :=
  fun s => Stopped FatalLog (logged s [(FATAL, m)]).

(** A query: reads the world. *)
Definition query {A} (q : World -> A) : M A := fun s => Returned (q (world s)) s.

(** A call that may change the world; it is recorded in [calls]. *)
Definition call {A} (c : Call) (f : World -> A * World) : M A :=
  fun s => Returned (f (world s)).1 (called s c (f (world s)).2).

Definition modify_job (f : LastJobInfo -> LastJobInfo) : M unit :=
  fun s => Returned tt (with_job s (f (last_job_info_ s))).

Definition get_job : M LastJobInfo := fun s => Returned (last_job_info_ s) s.

(** [execve] succeeded: this process image is gone. *)
Definition image_replaced {A} : M A := fun s => Stopped ImageReplaced s.

(** [StartViaFork].  The result of [waitpid] itself is not looked at by the
    source; the status word is whatever the call left in [wstatus]. *)
Definition StartViaFork (params : CompilerForkParameters) : M bool :=
  do child <- call CallFork Fork;
  if bool_decide (child = -1) then
    LOG_FATAL FailedToFork
  else if bool_decide (child > 0) then
    LOG DEBUG (ForkedInto child);;
    do wstatus <- call (CallWaitpid child) (waitpid child);
    if negb (WIFEXITED wstatus) then
      LOG ERROR (ChildTerminatedAbnormally (WEXITSTATUS wstatus));;
      ret false
    else
      LOG DEBUG (ChildTerminated (WEXITSTATUS wstatus));;
      ret true
  else
    let argv_vec := MakeCompilerParams params in
    LOG DEBUG (ForkExec kCommandFileName argv_vec);;
    do r <- call (CallExecve kCommandFileName argv_vec) (Execve kCommandFileName argv_vec);
    match r with
    | None => image_replaced
    | Some _ => ret false
    end.

(** The loop of [GetPerfettoTraceInfo]; [perfetto_traces] is the vector built
    so far. *)
Fixpoint GetPerfettoTraceInfo_loop (db : DbHandle)
    (histories : list AppLaunchHistoryModel.t)
    (perfetto_traces : list CompilationInput) : M (list CompilationInput) :=
  match histories with
  | [] => ret perfetto_traces
  | history :: histories' =>
      do raw_trace <- query (RawTraceModel_SelectByHistoryId db
                               (AppLaunchHistoryModel.id history));
      match raw_trace with
      | None =>
          LOG ERROR (CannotFindRawTrace (AppLaunchHistoryModel.id history));;
          GetPerfettoTraceInfo_loop db histories' perfetto_traces
      | Some raw_trace =>
          do timestamp_limit <-
            match AppLaunchHistoryModel.report_fully_drawn_ns history with
            | Some v => ret v
            | None =>
                match AppLaunchHistoryModel.total_time_ns history with
                | Some v => ret v
                | None => LOG ERROR NoTimestampExists;; ret UINT64_MAX
                end
            end;
          GetPerfettoTraceInfo_loop db histories'
            (perfetto_traces ++ [mkInput (RawTraceModel.file_path raw_trace) timestamp_limit])
      end
  end.

Definition GetPerfettoTraceInfo (db : DbHandle)
    (histories : list AppLaunchHistoryModel.t) : M (list CompilationInput) :=
  GetPerfettoTraceInfo_loop db histories [].

(** [CompileActivity].  The scoped trace markers are left out.  The test of
    the disk only reads the world, so reading it also when [recompile] is set
    changes nothing. *)
Definition CompileActivity (db : DbHandle) (package_id : Z)
    (package_name activity_name : string) (version : Z)
    (params : ControllerParameters) : M bool :=
  let file_path := CompiledTraceFileModel_FilePath package_name activity_name version in
  do file_exists <- query (filesystem_exists file_path);
  if negb (recompile params) && file_exists then
    LOG DEBUG (CompiledTraceExists file_path);;
    ret true
  else
  do activity <- query (ActivityModel_SelectByNameAndPackageId db activity_name package_id);
  match activity with
  | None =>
      LOG ERROR (CannotFindActivity package_id activity_name);;
      ret false
  | Some activity =>
      let activity_id := ActivityModel.id activity in
      do histories <-
        query (AppLaunchHistoryModel_SelectActivityHistoryForCompile db activity_id);
      do perfetto_traces <- GetPerfettoTraceInfo db histories;
      if (N.of_nat (length perfetto_traces) <? min_traces params)%N then
        LOG DEBUG (TooFewTraces (length perfetto_traces) (min_traces params));;
        ret false
      else
      modify_job (fun j => mkJob (last_run_ns_ j) (size_incr (activities_last_compiled_ j)));;
      LOG DEBUG (TryToCompile package_id package_name activity_name version file_path
                   (verbose params) perfetto_traces);;
      match inode_textcache params with
      | Some path => LOG DEBUG (InodeTextcache path)
      | None => ret tt
      end;;
      let compiler_params := CompilerForkParameters_new perfetto_traces file_path params in
      do made <- call (CallMkdirWithParents file_path)
                      (CompiledTraceFileModel_MkdirWithParents file_path);
      if negb made then
        LOG ERROR (FailedToMkdirs file_path);;
        ret false
      else
      do started <- StartViaFork compiler_params;
      if negb started then
        LOG ERROR (CompilationFailed package_id activity_name);;
        ret false
      else
      do compiled_trace <- call (CallInsert activity_id file_path)
                                (PrefetchFileModel_Insert db activity_id file_path);
      match compiled_trace with
      | None =>
          LOG ERROR (CannotInsertCompiledTrace activity_id file_path);;
          ret false
      | Some _ => ret true
      end
  end.

(** The shape shared by the two aggregating loops: run the body on every
    element, and clear [ret] when a body fails. *)
Fixpoint for_each {A} (body : A -> M bool) (l : list A) (ret_ : bool) : M bool :=
  match l with
  | [] => ret ret_
  | x :: l' =>
      do ok <- body x;
      for_each body l' (if negb ok then false else ret_)
  end.

Definition CompilePackage (db : DbHandle) (package_name : string) (version : Z)
    (params : ControllerParameters) : M bool :=
  do package <- query (PackageModel_SelectByNameAndVersion db package_name version);
  match package with
  | None =>
      LOG ERROR (CannotFindPackage package_name version);;
      ret false
  | Some package =>
      do activities <- query (ActivityModel_SelectByPackageId db (PackageModel.id package));
      for_each
        (fun activity =>
           CompileActivity db (PackageModel.id package) (PackageModel.name package)
             (ActivityModel.name activity) version params)
        activities true
  end.

Definition CompileAppsOnDevice (db : DbHandle) (params : ControllerParameters) : M bool :=
  modify_job (fun j => mkJob (last_run_ns_ j) 0);;
  do packages <- query (PackageModel_SelectAll db);
  do ret_ <- for_each
    (fun package =>
       CompilePackage db (PackageModel.name package) (PackageModel.version package) params)
    packages true;
  do now <- query time;
  modify_job (fun j => mkJob now (activities_last_compiled_ j));;
  ret ret_.

(** The three overloads of [Compile]. *)
Definition Compile_device (db_path : string) (params : ControllerParameters) : M bool :=
  do db <- call (CallGetOrCreate db_path) (SchemaModel_GetOrCreate db_path);
  CompileAppsOnDevice db params.

Definition Compile_package (db_path package_name : string) (version : Z)
    (params : ControllerParameters) : M bool :=
  do db <- call (CallGetOrCreate db_path) (SchemaModel_GetOrCreate db_path);
  CompilePackage db package_name version params.

Definition Compile_activity (db_path package_name activity_name : string) (version : Z)
    (params : ControllerParameters) : M bool :=
  do db <- call (CallGetOrCreate db_path) (SchemaModel_GetOrCreate db_path);
  do package <- query (PackageModel_SelectByNameAndVersion db package_name version);
  match package with
  | None =>
      LOG ERROR (CannotFindPackageWithName package_name version);;
      ret false
  | Some package =>
      CompileActivity db (PackageModel.id package) package_name activity_name version params
  end.

(** *** The specification's vocabulary, for comparison with the code *)

(** Section 4.4, step 4: the effective timestamp limit of a history. *)
Definition effective_timestamp_limit (history : AppLaunchHistoryModel.t) : Z :=
  match AppLaunchHistoryModel.report_fully_drawn_ns history with
  | Some report_fully_drawn => report_fully_drawn
  | None =>
      match AppLaunchHistoryModel.total_time_ns history with
      | Some total_time => total_time
      | None => UINT64_MAX
      end
  end.

(** A history with a raw-trace row gives one input; one without gives none. *)
Definition compilation_input (db : DbHandle) (w : World)
    (history : AppLaunchHistoryModel.t) : option CompilationInput :=
  match RawTraceModel_SelectByHistoryId db (AppLaunchHistoryModel.id history) w with
  | Some raw_trace =>
      Some (mkInput (RawTraceModel.file_path raw_trace) (effective_timestamp_limit history))
  | None => None
  end.

Definition compilation_inputs (db : DbHandle) (w : World)
    (histories : list AppLaunchHistoryModel.t) : list CompilationInput :=
  omap (compilation_input db w) histories.

(** The errors the specification asks to be logged on the way: one for every
    history without a raw trace, one for every history with a raw trace and
    neither timing field. *)
Definition trace_errors (db : DbHandle) (w : World)
    (histories : list AppLaunchHistoryModel.t) : list (Severity * Msg) :=
  flat_map
    (fun history =>
       match RawTraceModel_SelectByHistoryId db (AppLaunchHistoryModel.id history) w with
       | None => [(ERROR, CannotFindRawTrace (AppLaunchHistoryModel.id history))]
       | Some _ =>
           match AppLaunchHistoryModel.report_fully_drawn_ns history,
                 AppLaunchHistoryModel.total_time_ns history with
           | None, None => [(ERROR, NoTimestampExists)]
           | _, _ => []
           end
       end)
    histories.

(** The inputs a per-activity compile has in hand at its evidence check. *)
Definition inputs_of_activity (db : DbHandle) (w : World) (activity : ActivityModel.t)
    : list CompilationInput :=
  compilation_inputs db w
    (AppLaunchHistoryModel_SelectActivityHistoryForCompile db (ActivityModel.id activity) w).

(** A per-activity compile is attempted when it is not short-circuited by an
    existing output file, finds its activity, and has at least [min_traces]
    inputs. *)
Definition attempted (db : DbHandle) (package_id : Z) (package_name activity_name : string)
    (version : Z) (params : ControllerParameters) (w : World) : bool :=
  negb (negb (recompile params)
        && filesystem_exists
             (CompiledTraceFileModel_FilePath package_name activity_name version) w)
  && match ActivityModel_SelectByNameAndPackageId db activity_name package_id w with
     | None => false
     | Some activity =>
         negb (N.of_nat (length (inputs_of_activity db w activity)) <? min_traces params)%N
     end.

(** Every attempt begins with exactly one [MkdirWithParents], and nothing
    else makes that call: attempts are counted by it. *)
Definition is_attempt (c : Call) : bool :=
  match c with
  | CallMkdirWithParents _ => true
  | _ => false
  end.

Definition attempts (evs : list Call) : nat := length (List.filter is_attempt evs).

(** A computation is quiet when it makes no attempt of its own and leaves
    the job record alone, in whatever state it ends. *)
Definition quiet {A} (m : M A) : Prop :=
  forall s : Sys,
    exists evs,
      calls (final (m s)) = evs ++ calls s
      /\ attempts evs = 0%nat
      /\ last_job_info_ (final (m s)) = last_job_info_ s.

(** A computation always returns to its caller. *)
Definition returns {A} (m : M A) : Prop :=
  forall s : Sys, exists a s', m s = Returned a s'.

(** A computation only logs errors: it returns, and the process state it
    leaves differs from the one it found by error lines in the log. *)
Definition only_logs_errors {A} (m : M A) : Prop :=
  forall s : Sys,
    exists a entries,
      m s = Returned a (logged s entries)
      /\ Forall (fun entry => entry.1 = ERROR) entries.

(** The process state right after a [Fork] or an [Execve]. *)
Definition at_fork (s : Sys) : Prop :=
  match calls s with
  | CallFork :: _ => True
  | CallExecve _ _ :: _ => True
  | _ => False
  end.

(** A computation that stops does so at a fork: on the fatal log that
    follows a failed [Fork], or in a forked child whose image [Execve]
    replaced. *)
Definition stops_at_fork {A} (m : M A) : Prop :=
  forall (s : Sys) (why : Stop) (s' : Sys), m s = Stopped why s' -> at_fork s'.

(** A computation keeps count when [activities_last_compiled_] advances, as
    a [size_t], by the attempts among the calls it makes, and leaves
    [last_run_ns_] alone; this holds for the process state it ends in whether
    it returns or stops. *)
Definition keeps_count {A} (m : M A) : Prop :=
  forall (s : Sys) (k : Z),
    activities_last_compiled_ (last_job_info_ s) = k mod 2 ^ 64 ->
    exists evs,
      calls (final (m s)) = evs ++ calls s
      /\ activities_last_compiled_ (last_job_info_ (final (m s)))
         = (k + Z.of_nat (attempts evs)) mod 2 ^ 64
      /\ last_run_ns_ (last_job_info_ (final (m s))) = last_run_ns_ (last_job_info_ s).

Definition TimeToString (the_time : Z) : string :=
  match strftime_localtime the_time with
  | Some time_buffer => time_buffer
  | None => "(nullptr)"
  end.

Definition GetTimestampForPrefetchFile (prefetch_file : PrefetchFileModel.t)
    (w : World) : string :=
  match filesystem_last_write_time (PrefetchFileModel.file_path prefetch_file) w with
  | inl message => "Failed to get last write time: " +:+ message
  | inr time => TimeToString time
  end.

(** The [Dump] family returns the lines it gives to the printer. *)
Definition DumpPackageActivity (db : DbHandle) (package : PackageModel.t)
    (activity : ActivityModel.t) : M (list string) :=
  let package_name := PackageModel.name package in
  let package_version := PackageModel.version package in
  let activity_name := ActivityModel.name activity in
  let head :=
    [ "  " +:+ package_name +:+ "/" +:+ activity_name +:+ "@" +:+ pretty package_version ] in
  do prefetch_file <-
    query (PrefetchFileModel_SelectByVersionedComponentName db package_name activity_name
             package_version);
  do histories <-
    query (AppLaunchHistoryModel_SelectActivityHistoryForCompile db
             (ActivityModel.id activity));
  do perfetto_traces <- GetPerfettoTraceInfo db histories;
  do status <-
    match prefetch_file with
    | Some prefetch_file =>
        let path := PrefetchFileModel.file_path prefetch_file in
        do exists_on_disk <- query (filesystem_exists path);
        do prefetch_byte_sum <- query (ReadAhead_PrefetchSizeInBytes path);
        do stamp <- query (GetTimestampForPrefetchFile prefetch_file);
        ret ([ if exists_on_disk : bool
               then "    Compiled Status: Usable compiled trace"
               else "    Compiled Status: Prefetch file deleted from disk.";
               match prefetch_byte_sum with
               | Some n => "      Bytes to be prefetched: " +:+ pretty n
               | None => "      Bytes to be prefetched: (bad file path)"
               end;
               "      Time compiled: " +:+ stamp;
               "      " +:+ path ])
    | None =>
        let size := length perfetto_traces in
        ret ([ if negb (size <? kMinTracesForCompilation)%nat
               then "    Compiled Status: Raw traces pending compilation ("
                      +:+ pretty size +:+ ")"
               else "    Compiled Status: Need "
                      +:+ pretty (kMinTracesForCompilation - size)%nat
                      +:+ " more traces for compilation" ])
    end;
  ret (head ++ status
       ++ [ "    Raw traces:";
            "      Trace count: " +:+ pretty (length perfetto_traces) ]
       ++ ((fun compilation_input => "      " +:+ filename compilation_input)
             <$> perfetto_traces)).

(** Loops that only print: the lines of every element, in order. *)
Fixpoint print_each {A} (body : A -> M (list string)) (l : list A) : M (list string) :=
  match l with
  | [] => ret []
  | x :: l' =>
      do lines <- body x;
      do more <- print_each body l';
      ret (lines ++ more)
  end.

Definition DumpPackage (db : DbHandle) (package : PackageModel.t) : M (list string) :=
  do activities <- query (ActivityModel_SelectByPackageId db (PackageModel.id package));
  print_each (DumpPackageActivity db package) activities.

Definition DumpAllPackages (db : DbHandle) : M (list string) :=
  do packages <- query (PackageModel_SelectAll db);
  do lines <- print_each (DumpPackage db) packages;
  ret ([ "Package history in database:" ] ++ lines ++ [ EmptyString ]).

Definition Dump (db : DbHandle) (last_job_info_mutex_ : Mutex) : M (list string * Mutex) :=
  let '(locked, last_job_info_mutex_) := try_lock last_job_info_mutex_ in
  do info <- get_job;
  let job_lines :=
    [ "Background job:" ]
    ++ (if negb locked then [ "  (possible deadlock)" ] else [])
    ++ [ if negb (bool_decide (last_run_ns_ info = 0))
         then "  Last run at: " +:+ TimeToString (last_run_ns_ info)
         else "  Last run at: (None)";
         "  Activities last compiled: " +:+ pretty (activities_last_compiled_ info);
         EmptyString ] in
  let last_job_info_mutex_ :=
    if locked then unlock last_job_info_mutex_ else last_job_info_mutex_ in
  do package_lines <- DumpAllPackages db;
  ret (job_lines ++ package_lines, last_job_info_mutex_).

End WithPlatform.

Arguments Sys {_}.
Arguments Result {_} A.
Arguments Returned {_ A} a s.
Arguments Stopped {_ A} why s.

(** *** A platform for tests

    A store held in lists, a disk that is a list of existing paths, and an
    [exec] object that answers [Fork] and [waitpid] from scripts. *)
Record FakeWorld := mkFake {
  packages : list PackageModel.t;
  activities : list ActivityModel.t;
  histories : list AppLaunchHistoryModel.t;
  raw_traces : list RawTraceModel.t;
  prefetch_files : list PrefetchFileModel.t;
  files : list string;
  pids : list Z;
  statuses : list Z;
  mkdir_works : bool;
  insert_works : bool;
  clock : Z;
}.

Definition fake_FilePath (package_name activity_name : string) (version : Z) : string :=
  "/data/misc/iorapd/" +:+ package_name +:+ "/" +:+ pretty version +:+ "/"
    +:+ activity_name +:+ "/compiled_traces/compiled_trace.pb".

Definition fake_Insert (activity_id : Z) (file_path : string) (w : FakeWorld)
    : option PrefetchFileModel.t * FakeWorld :=
  if insert_works w then
    let row := PrefetchFileModel.mk (Z.of_nat (length (prefetch_files w)) + 1)
                 activity_id file_path in
    (Some row,
     mkFake (packages w) (activities w) (histories w) (raw_traces w)
            (prefetch_files w ++ [row]) (files w) (pids w) (statuses w)
            (mkdir_works w) (insert_works w) (clock w))
  else (None, w).

Definition fake_Fork (w : FakeWorld) : Z * FakeWorld :=
  match pids w with
  | [] => (-1, w)
  | pid :: rest =>
      (pid,
       mkFake (packages w) (activities w) (histories w) (raw_traces w)
              (prefetch_files w) (files w) rest (statuses w)
              (mkdir_works w) (insert_works w) (clock w))
  end.

Definition fake_waitpid (w : FakeWorld) : Z * FakeWorld :=
  match statuses w with
  | [] => (0, w)
  | wstatus :: rest =>
      (wstatus,
       mkFake (packages w) (activities w) (histories w) (raw_traces w)
              (prefetch_files w) (files w) (pids w) rest
              (mkdir_works w) (insert_works w) (clock w))
  end.

Definition fake_platform : Platform := {|
  World := FakeWorld;
  DbHandle := unit;
  SchemaModel_GetOrCreate := fun _ w => (tt, w);
  PackageModel_SelectAll := fun _ w => packages w;
  PackageModel_SelectByNameAndVersion := fun _ name version w =>
    list_find (fun p => PackageModel.name p = name /\ PackageModel.version p = version)
              (packages w) ≫= fun r => Some r.2;
  ActivityModel_SelectByPackageId := fun _ package_id w =>
    filter (fun a => ActivityModel.package_id a = package_id) (activities w);
  ActivityModel_SelectByNameAndPackageId := fun _ name package_id w =>
    list_find (fun a => ActivityModel.name a = name /\ ActivityModel.package_id a = package_id)
              (activities w) ≫= fun r => Some r.2;
  AppLaunchHistoryModel_SelectActivityHistoryForCompile := fun _ activity_id w =>
    filter (fun h => AppLaunchHistoryModel.activity_id h = activity_id) (histories w);
  RawTraceModel_SelectByHistoryId := fun _ history_id w =>
    list_find (fun r => RawTraceModel.history_id r = history_id) (raw_traces w)
      ≫= fun r => Some r.2;
  PrefetchFileModel_Insert := fun _ => fake_Insert;
  PrefetchFileModel_SelectByVersionedComponentName := fun _ package_name activity_name version w =>
    list_find (fun f => PrefetchFileModel.file_path f
                        = fake_FilePath package_name activity_name version)
              (prefetch_files w) ≫= fun r => Some r.2;
  CompiledTraceFileModel_FilePath := fake_FilePath;
  CompiledTraceFileModel_MkdirWithParents := fun _ w => (mkdir_works w, w);
  filesystem_exists := fun path w => bool_decide (path ∈ files w);
  filesystem_last_write_time := fun path w =>
    if bool_decide (path ∈ files w) then inr (clock w)
    else inl "No such file or directory";
  ReadAhead_PrefetchSizeInBytes := fun path w =>
    if bool_decide (path ∈ files w) then Some 0 else None;
  Fork := fake_Fork;
  Execve := fun _ _ w => (None, w);
  waitpid := fun _ => fake_waitpid;
  time := clock;
  strftime_localtime := fun t => Some (pretty t);
|}.

(** Fixtures: the store holds package [pkg], version 7, with activity [Main]
    and three launch histories; [traces] of them have a raw trace.  The disk
    holds [files]; [Fork] and [waitpid] answer from [pids] and [statuses]. *)
Definition demo_histories : list AppLaunchHistoryModel.t :=
  [ AppLaunchHistoryModel.mk 100 10 None (Some 100);
    AppLaunchHistoryModel.mk 101 10 (Some 5) (Some 200);
    AppLaunchHistoryModel.mk 102 10 (Some 300) None ].

Definition demo_raw_traces : list RawTraceModel.t :=
  [ RawTraceModel.mk 1 100 "t1.pb";
    RawTraceModel.mk 2 101 "t2.pb";
    RawTraceModel.mk 3 102 "t3.pb" ].

Definition demo_world (traces : nat) (files : list string) (pids statuses : list Z)
    : FakeWorld :=
  mkFake [PackageModel.mk 1 "pkg" 7] [ActivityModel.mk 10 "Main" 1]
         demo_histories (take traces demo_raw_traces) [] files pids statuses
         true true 1234.

Definition demo_sys (w : FakeWorld) : @Sys fake_platform :=
  @mkSys fake_platform w (mkJob 0 5) [] [].

Definition demo_params (recompile : bool) (min_traces : N) : ControllerParameters :=
  mkParams false None false recompile min_traces.

Definition demo_file_path : string :=
  "/data/misc/iorapd/pkg/7/Main/compiled_traces/compiled_trace.pb".

End Controller.


(** * Properties *)

(** ** The package-version cache *)

Section PackageVersionMapFacts.
Import PackageVersionMap.
Context `{PackageManagerRemote}.

Lemma GetOrQueryPackageVersion_hit (s : t) (name : string) (v : Z) :
  version_map_ s !! name = Some v ->
  GetOrQueryPackageVersion name s = (v, s).
Proof. intros Hv. unfold GetOrQueryPackageVersion. now rewrite Hv. Qed.

(** C8.  [GetOrQueryPackageVersion name]: when [name] is cached, the cached
    version is returned and nothing changes, so the remote is not consulted.
    When it is not cached, exactly one single-package query reaches the
    remote; if it answers [v], then [v] is returned and written into the map,
    and asking again returns [v] from the map with no further query; if it
    answers nothing, [-1] is returned and the map is as before. *)
Theorem GetOrQueryPackageVersion_cache (s : t) (name : string) :
  match version_map_ s !! name with
  | Some v => GetOrQueryPackageVersion name s = (v, s)
  | None =>
      let r := GetOrQueryPackageVersion name s in
      remote_calls r.2 = remote_calls s ++ [QueryOne name]
      /\ match (GetPackageVersion (package_manager_ s) name).1 with
         | Some v =>
             r.1 = v
             /\ version_map_ r.2 = <[name := v]> (version_map_ s)
             /\ GetOrQueryPackageVersion name r.2 = (v, r.2)
         | None => r.1 = -1 /\ version_map_ r.2 = version_map_ s
         end
  end.
Proof.
  destruct (version_map_ s !! name) as [v|] eqn:Hlook.
  - now apply GetOrQueryPackageVersion_hit.
  - cbv zeta.
    destruct (GetPackageVersion (package_manager_ s) name) as [[v|] pm'] eqn:Hq; cbn.
    + assert (Hr : GetOrQueryPackageVersion name s
                   = (v, mk pm' (<[name := v]> (version_map_ s))
                            (remote_calls s ++ [QueryOne name])
                            ((log s ++ [(WARNING, CannotFindInTable name)])
                               ++ [(VERBOSE, FoundOnTheFly name)]))).
      { unfold GetOrQueryPackageVersion. rewrite Hlook. cbn. now rewrite Hq. }
      rewrite Hr. cbn. repeat split.
      apply GetOrQueryPackageVersion_hit. cbn. apply lookup_insert_eq.
    + assert (Hr : GetOrQueryPackageVersion name s
                   = (-1, mk pm' (version_map_ s)
                             (remote_calls s ++ [QueryOne name])
                             ((log s ++ [(WARNING, CannotFindInTable name)])
                                ++ [(ERROR, CannotFindOnTheFly name)]))).
      { unfold GetOrQueryPackageVersion. rewrite Hlook. cbn. now rewrite Hq. }
      rewrite Hr. cbn. repeat split.
Qed.

End PackageVersionMapFacts.

(** The version-cache scenario of the test plan: the snapshot holds [pkg];
    [other] is found on the fly once, and served from the map afterwards.
    Each query that reaches the remote is listed in [remote_calls]. *)
Example version_cache_miss_then_hit :
  let remote : @PackageVersionMap.Remote PackageVersionMap.table_remote :=
    ({[ "pkg" := 1 ]}, {[ "pkg" := 1; "other" := 2 ]}) in
  exists s0 s1,
    @PackageVersionMap.Create PackageVersionMap.table_remote (Some remote) = Some s0
    /\ PackageVersionMap.version_map_ s0 = {[ "pkg" := 1 ]}
    /\ PackageVersionMap.GetOrQueryPackageVersion "other" s0 = (2, s1)
    /\ PackageVersionMap.remote_calls s1
       = [PackageVersionMap.QueryAll; PackageVersionMap.QueryOne "other"]
    /\ PackageVersionMap.GetOrQueryPackageVersion "other" s1 = (2, s1).
Proof. eexists _, _. repeat split. Qed.

(** ** The tracing-session tracker *)

Section PerfettoConsumerFacts.
Import PerfettoConsumer.
Context `{PerfettoConsumerRaw}.

(** Unfolds the field updates of [Impl] and reads the fields back. *)
Ltac impl_fields :=
  unfold set_states, set_raw, set_last_created, set_last_destroyed, LOG in *;
  cbn [states_ last_created_ last_destroyed_ raw_ log fst snd] in *.

(** For an untracked handle both predicates return at their third test; the
    comparisons against the extreme tracked handles are never reached. *)
Lemma IsDestroyed_untracked (s : Impl) (h : Handle) :
  states_ s !! h = None ->
  IsDestroyed s h
  = negb (bool_decide (h = kInvalidHandle)) && bool_decide (h <= last_destroyed_ s).
Proof.
  intros Hn. unfold IsDestroyed. rewrite Hn.
  rewrite (bool_decide_eq_true_2 (None = None)) by reflexivity. cbn.
  now destruct (bool_decide (h = kInvalidHandle)).
Qed.

Lemma IsUncreated_untracked (s : Impl) (h : Handle) :
  states_ s !! h = None ->
  IsUncreated s h
  = bool_decide (h = kInvalidHandle) || bool_decide (h > last_destroyed_ s).
Proof.
  intros Hn. unfold IsUncreated. rewrite Hn.
  rewrite (bool_decide_eq_true_2 (None = None)) by reflexivity. cbn.
  now destruct (bool_decide (h = kInvalidHandle)).
Qed.

Lemma IsDestroyed_tracked (s : Impl) (h : Handle) (d : HandleDescription) :
  states_ s !! h = Some d -> IsDestroyed s h = false /\ IsUncreated s h = false.
Proof.
  intros Hs. unfold IsDestroyed, IsUncreated. rewrite Hs.
  now rewrite (bool_decide_eq_false_2 (Some d = None)) by discriminate.
Qed.

Lemma infer_never_bad_state (s : Impl) (h : Handle) :
  states_ s !! h = None -> infer s h <> InferBadState.
Proof.
  intros Hn. unfold infer.
  rewrite (IsDestroyed_untracked s h Hn), (IsUncreated_untracked s h Hn).
  destruct (bool_decide_reflect (h = kInvalidHandle)); cbn; [discriminate|].
  destruct (bool_decide_reflect (h <= last_destroyed_ s)); cbn; [discriminate|].
  rewrite bool_decide_eq_true_2 by lia. discriminate.
Qed.

(** The inference for an untracked handle, as a table. *)
Lemma infer_untracked (s : Impl) (h : Handle) :
  states_ s !! h = None ->
  infer s h
  = if bool_decide (h = kInvalidHandle) then InferUncreated
    else if bool_decide (h <= last_destroyed_ s) then InferDestroyed
    else InferUncreated.
Proof.
  intros Hn. unfold infer.
  rewrite (IsDestroyed_untracked s h Hn), (IsUncreated_untracked s h Hn).
  destruct (bool_decide_reflect (h = kInvalidHandle)); cbn; [reflexivity|].
  destruct (bool_decide_reflect (h <= last_destroyed_ s)); cbn; [reflexivity|].
  now rewrite bool_decide_eq_true_2 by lia.
Qed.

(** *** The invariant behind the re-use check of [Create] *)

Lemma init_tracked (raw : Raw) : tracked_below_last_created (init raw).
Proof. split; [cbn; lia|]. intros h d. cbn. now rewrite lookup_empty. Qed.

Lemma Create_tracked (config : list Byte.byte) (s s' : Impl) (h : Handle) :
  tracked_below_last_created s ->
  Create config s = Ok (h, s') ->
  tracked_below_last_created s'.
Proof.
  intros [Hpos Hinv]. unfold Create. impl_fields.
  destruct (raw_Create (raw_ s) config) as [handle raw]. impl_fields.
  case_bool_decide as Hmax; [discriminate|].
  case_bool_decide as Heq; cbn [negb]; [|discriminate].
  case_bool_decide as Hfree; cbn [negb]; [|discriminate].
  intros [= <- <-]. split; impl_fields; [lia|]. intros k d.
  destruct (decide (handle = k)) as [->|Hne].
  - rewrite lookup_insert_eq. intros _. lia.
  - rewrite lookup_insert_ne by exact Hne. intros Hk.
    specialize (Hinv k d Hk). lia.
Qed.

Lemma StartTracing_tracked (h : Handle) (s : Impl) :
  tracked_below_last_created s -> tracked_below_last_created (StartTracing h s).
Proof.
  intros [Hpos Hinv]. unfold StartTracing. impl_fields.
  destruct (states_ s !! h) as [d0|] eqn:Hh; impl_fields; [|now split].
  split; impl_fields; [exact Hpos|]. intros k d.
  destruct (decide (h = k)) as [->|Hne].
  - intros _. exact (Hinv k d0 Hh).
  - rewrite lookup_insert_ne by exact Hne. apply Hinv.
Qed.

Lemma ReadTrace_tracked (h : Handle) (s : Impl) :
  tracked_below_last_created s -> tracked_below_last_created (ReadTrace h s).2.
Proof.
  intros [Hpos Hinv]. unfold ReadTrace. impl_fields.
  destruct (states_ s !! h) as [d0|] eqn:Hh; impl_fields; [|now split].
  destruct (raw_ReadTrace (raw_ s) h) as [buffer raw]. impl_fields.
  split; impl_fields; [exact Hpos|]. intros k d.
  destruct (decide (h = k)) as [->|Hne].
  - intros _. exact (Hinv k d0 Hh).
  - rewrite lookup_insert_ne by exact Hne. apply Hinv.
Qed.

Lemma Destroy_tracked (h : Handle) (s : Impl) :
  tracked_below_last_created s -> tracked_below_last_created (Destroy h s).
Proof.
  intros [Hpos Hinv]. unfold Destroy. impl_fields.
  destruct (states_ s !! h) as [d0|] eqn:Hh; impl_fields; [|now split].
  split; impl_fields; [exact Hpos|]. intros k d.
  destruct (decide (h = k)) as [->|Hne].
  - now rewrite lookup_delete_eq.
  - rewrite lookup_delete_ne, lookup_insert_ne by exact Hne. apply Hinv.
Qed.

Lemma step_tracked (op : Op) (s s' : Impl) :
  tracked_below_last_created s -> step op s = Ok s' -> tracked_below_last_created s'.
Proof.
  intros Hinv. destruct op as [config|h|h|h]; cbn.
  - destruct (Create config s) as [[h s1]|why] eqn:Hc; [|discriminate].
    intros [= <-]. exact (Create_tracked config s s1 h Hinv Hc).
  - intros [= <-]. now apply StartTracing_tracked.
  - intros [= <-]. now apply ReadTrace_tracked.
  - intros [= <-]. now apply Destroy_tracked.
Qed.

Lemma run_tracked (ops : list Op) (s s' : Impl) :
  tracked_below_last_created s -> run ops s = Ok s' -> tracked_below_last_created s'.
Proof.
  revert s. induction ops as [|op ops IH]; intros s Hinv; cbn.
  - now intros [= <-].
  - destruct (step op s) as [s1|why] eqn:Hstep; [|discriminate].
    apply IH. exact (step_tracked op s s1 Hinv Hstep).
Qed.

Lemma reachable_tracked (s : Impl) :
  reachable s -> tracked_below_last_created s.
Proof.
  intros (raw & ops & Hrun). exact (run_tracked ops (init raw) s (init_tracked raw) Hrun).
Qed.

(** C3.  [Create] on a tracker that some sequence of operations has reached,
    with the counter below the top of [int64_t] (where its increment is
    defined): if the engine's handle is not [last_created + 1] the process
    aborts on the check; if it is, [Create] returns it, [last_created]
    becomes that handle, and the tracked map gains an entry for it of kind
    [kCreated] while every other entry stays as it was. *)
Theorem Create_requires_next_handle (config : list Byte.byte) (s : Impl) :
  reachable s ->
  last_created_ s < INT64_MAX ->
  let handle := (raw_Create (raw_ s) config).1 in
  (handle <> last_created_ s + 1 ->
   Create config s = Aborted (HandleUnexpected (last_created_ s + 1) handle))
  /\ (handle = last_created_ s + 1 ->
      exists s' d,
        Create config s = Ok (handle, s')
        /\ last_created_ s' = handle
        /\ states_ s' !! handle = Some d
        /\ kind_ d = kCreated
        /\ handle_ d = handle
        /\ forall k, k <> handle -> states_ s' !! k = states_ s !! k).
Proof.
  intros Hreach Hmax handle. subst handle.
  destruct (reachable_tracked s Hreach) as [Hpos Hinv].
  unfold Create. impl_fields.
  destruct (raw_Create (raw_ s) config) as [handle raw]. impl_fields.
  rewrite bool_decide_eq_false_2 by lia.
  split; intros Hh.
  - rewrite bool_decide_eq_false_2 by congruence. reflexivity.
  - rewrite bool_decide_eq_true_2 by congruence. cbn [negb].
    assert (Hfree : states_ s !! handle = None).
    { destruct (states_ s !! handle) as [d|] eqn:Hd; [|reflexivity].
      specialize (Hinv handle d Hd). lia. }
    rewrite bool_decide_eq_true_2 by exact Hfree. cbn [negb].
    eexists _, _. split; [reflexivity|]. impl_fields.
    split; [congruence|]. split; [apply lookup_insert_eq|].
    split; [reflexivity|]. split; [reflexivity|].
    intros k Hk. now apply lookup_insert_ne.
Qed.

(** C2, as the code has it.  For a handle that is not tracked, the inference
    of [GetOrInferHandleDescription] answers Destroyed exactly when the handle
    is not [kInvalidHandle] and is at most [last_destroyed]; it answers
    Uncreated exactly when the handle is [kInvalidHandle] or is above
    [last_destroyed]; [IsDestroyed] and [IsUncreated] never both hold; and the
    function itself marks the description [kDestroyed] in the first case,
    leaves it as it found it otherwise, and logs nothing. *)
Theorem untracked_handle_inference (s : Impl) (h : Handle) :
  states_ s !! h = None ->
  (infer s h = InferDestroyed <-> h <> kInvalidHandle /\ h <= last_destroyed_ s)
  /\ (infer s h = InferUncreated <-> h = kInvalidHandle \/ h > last_destroyed_ s)
  /\ ~ (IsDestroyed s h = true /\ IsUncreated s h = true)
  /\ forall indeterminate,
       let blank := mkDesc (handle_ indeterminate) (kind_ indeterminate)
                      (state_ indeterminate) None (last_transition_ns_ indeterminate) in
       GetOrInferHandleDescription indeterminate h s
       = (match infer s h with
          | InferDestroyed => UpdateHandleDescription (raw_ s) blank kDestroyed
          | _ => blank
          end, s).
Proof.
  intros Hn.
  pose proof (infer_never_bad_state s h Hn) as Hbad.
  unfold GetOrInferHandleDescription. rewrite Hn.
  unfold infer in *.
  rewrite (IsDestroyed_untracked s h Hn), (IsUncreated_untracked s h Hn) in *.
  destruct (bool_decide_reflect (h = kInvalidHandle)) as [Hk|Hk];
    cbn [negb andb orb] in *.
  - repeat split; try discriminate; try tauto; intros; intuition congruence.
  - destruct (bool_decide_reflect (h <= last_destroyed_ s)) as [Hle|Hle];
      destruct (bool_decide_reflect (h > last_destroyed_ s)) as [Hgt|Hgt];
      cbn [negb andb orb] in *; try lia; try congruence.
    + repeat split; try discriminate; try tauto; try lia; intros;
        intuition congruence.
    + repeat split; try discriminate; try tauto; try lia; intros;
        intuition (try congruence; try lia).
Qed.

(** C10.  [Destroy] stores the handle it destroys in [last_destroyed],
    whatever was there.  So when two tracked handles are destroyed, the larger
    one first, [last_destroyed] goes down, and the larger handle, destroyed
    and no longer tracked, is above it and inferred Uncreated.  The sequence
    create 1, 2, 3; destroy 3; destroy 2 does this to handle 3. *)
Theorem Destroy_out_of_order :
  (forall (s : Impl) (a b : Handle) (da db : HandleDescription),
     states_ s !! a = Some da ->
     states_ s !! b = Some db ->
     a < b ->
     let s1 := Destroy b s in
     let s2 := Destroy a s1 in
     last_destroyed_ s1 = b
     /\ last_destroyed_ s2 = a
     /\ last_destroyed_ s2 < last_destroyed_ s1
     /\ states_ s2 !! b = None
     /\ infer s2 b = InferUncreated)
  /\ (exists s1 s2 : @Impl scripted_engine,
        @run scripted_engine
          [OpCreate []; OpCreate []; OpCreate []; OpDestroy 3]
          (@init scripted_engine [1; 2; 3]) = Ok s1
        /\ @step scripted_engine (OpDestroy 2) s1 = Ok s2
        /\ @last_destroyed_ scripted_engine s1 = 3
        /\ @last_destroyed_ scripted_engine s2 = 2
        /\ @states_ scripted_engine s2 !! 3 = None
        /\ @infer scripted_engine s2 3 = InferUncreated).
Proof.
  split.
  - intros s a b da db Ha Hb Hlt s1 s2.
    assert (H1 : last_destroyed_ s1 = b
                 /\ states_ s1 !! b = None
                 /\ states_ s1 !! a = Some da).
    { subst s1. unfold Destroy. impl_fields. rewrite Hb. impl_fields.
      split; [reflexivity|]. split; [apply lookup_delete_eq|].
      rewrite lookup_delete_ne, lookup_insert_ne by lia. exact Ha. }
    destruct H1 as (Hld1 & Hb1 & Ha1).
    assert (H2 : last_destroyed_ s2 = a /\ states_ s2 !! b = None).
    { subst s2. unfold Destroy. impl_fields. rewrite Ha1. impl_fields.
      split; [reflexivity|].
      rewrite lookup_delete_ne, lookup_insert_ne by lia. exact Hb1. }
    destruct H2 as (Hld2 & Hb2).
    split; [exact Hld1|]. split; [exact Hld2|]. split; [lia|]. split; [exact Hb2|].
    rewrite (infer_untracked s2 b Hb2), Hld2.
    destruct (bool_decide (b = kInvalidHandle)); [reflexivity|].
    now rewrite bool_decide_eq_false_2 by lia.
  - eexists _, _. split; [vm_compute; reflexivity|].
    split; [vm_compute; reflexivity|]. repeat split.
Qed.

End PerfettoConsumerFacts.

#[local] Existing Instance PerfettoConsumer.scripted_engine.

(** The handle-gap scenario of the test plan: three sessions were created
    and the engine now returns handle 5. *)
Lemma Create_requires_next_handle_witness :
  let s := PerfettoConsumer.after
             [PerfettoConsumer.OpCreate []; PerfettoConsumer.OpCreate [];
              PerfettoConsumer.OpCreate []] [1; 2; 3; 5] in
  PerfettoConsumer.reachable s
  /\ PerfettoConsumer.last_created_ s < INT64_MAX
  /\ PerfettoConsumer.last_created_ s = 3
  /\ PerfettoConsumer.Create [] s
     = PerfettoConsumer.Aborted (PerfettoConsumer.HandleUnexpected 4 5).
Proof.
  intros s.
  assert (Hreach : PerfettoConsumer.reachable s).
  { exists [1; 2; 3; 5],
      [PerfettoConsumer.OpCreate []; PerfettoConsumer.OpCreate [];
       PerfettoConsumer.OpCreate []].
    vm_compute. reflexivity. }
  assert (Hmax : PerfettoConsumer.last_created_ s < INT64_MAX)
    by (vm_compute; reflexivity).
  split; [exact Hreach|]. split; [exact Hmax|]. split; [reflexivity|].
  apply (proj1 (Create_requires_next_handle [] s Hreach Hmax)).
  vm_compute. discriminate.
Defined.

(** Handles 1 and 2 are created, then destroyed in the order 2, 1.  Handle 2
    is then untracked and inferred Uncreated although it is not above
    [last_created]; and [kInvalidHandle] is at most [last_destroyed] without
    being inferred Destroyed. *)
Lemma destroyed_handle_inferred_uncreated :
  exists s : @PerfettoConsumer.Impl PerfettoConsumer.scripted_engine,
    PerfettoConsumer.run
      [PerfettoConsumer.OpCreate []; PerfettoConsumer.OpCreate [];
       PerfettoConsumer.OpDestroy 2; PerfettoConsumer.OpDestroy 1]
      (PerfettoConsumer.init [1; 2]) = PerfettoConsumer.Ok s
    /\ PerfettoConsumer.states_ s !! 2 = None
    /\ PerfettoConsumer.infer s 2 = PerfettoConsumer.InferUncreated
    /\ ~ (2 > PerfettoConsumer.last_created_ s)
    /\ PerfettoConsumer.states_ s !! (-1) = None
    /\ -1 <= PerfettoConsumer.last_destroyed_ s
    /\ PerfettoConsumer.infer s (-1) <> PerfettoConsumer.InferDestroyed.
Proof.
  eexists. split; [vm_compute; reflexivity|].
  split; [reflexivity|]. split; [reflexivity|].
  split; [cbn; lia|]. split; [reflexivity|]. split; [cbn; lia|].
  vm_compute. discriminate.
Qed.

(** Two tracked handles destroyed the larger one first, after create 1, 2,
    3: destroy 3, then destroy 2. *)
Lemma Destroy_out_of_order_witness :
  exists s : @PerfettoConsumer.Impl PerfettoConsumer.scripted_engine,
    PerfettoConsumer.run
      [PerfettoConsumer.OpCreate []; PerfettoConsumer.OpCreate [];
       PerfettoConsumer.OpCreate []] (PerfettoConsumer.init [1; 2; 3])
    = PerfettoConsumer.Ok s
    /\ PerfettoConsumer.last_destroyed_
         (PerfettoConsumer.Destroy 2 (PerfettoConsumer.Destroy 3 s))
       < PerfettoConsumer.last_destroyed_ (PerfettoConsumer.Destroy 3 s)
    /\ PerfettoConsumer.infer
         (PerfettoConsumer.Destroy 2 (PerfettoConsumer.Destroy 3 s)) 3
       = PerfettoConsumer.InferUncreated.
Proof.
  eexists. split; [vm_compute; reflexivity|].
  match goal with
  | |- context [PerfettoConsumer.Destroy 3 ?s] =>
      destruct (proj1 Destroy_out_of_order s 2 3
                  (PerfettoConsumer.mkDesc 2 PerfettoConsumer.kCreated 0 None 0)
                  (PerfettoConsumer.mkDesc 3 PerfettoConsumer.kCreated 0 None 0)
                  eq_refl eq_refl ltac:(lia))
        as (_ & _ & Hlt & _ & Hinf)
  end.
  split; [exact Hlt | exact Hinf].
Defined.

(** ** The compilation controller *)

Section ControllerFacts.
Import Controller.
Context `{Platform}.

Ltac sys_fields :=
  cbn [world last_job_info_ log calls logged called with_job final
       last_run_ns_ activities_last_compiled_ fst snd] in *.

Lemma logged_nil (s : Sys) : logged s [] = s.
Proof. destruct s. unfold logged. cbn. now rewrite app_nil_r. Qed.

Lemma logged_logged (s : Sys) (l1 l2 : list (Severity * Msg)) :
  logged (logged s l1) l2 = logged s (l1 ++ l2).
Proof. unfold logged. cbn. now rewrite app_assoc. Qed.

(** *** Running a computation one statement at a time *)

Lemma bind_ret {A B} (a : A) (k : A -> M B) (s : Sys) : bind (ret a) k s = k a s.
Proof. reflexivity. Qed.

Lemma bind_LOG {B} (sev : Severity) (m : Msg) (k : unit -> M B) (s : Sys) :
  bind (LOG sev m) k s = k tt (logged s [(sev, m)]).
Proof. reflexivity. Qed.

Lemma bind_query {A B} (q : World -> A) (k : A -> M B) (s : Sys) :
  bind (query q) k s = k (q (world s)) s.
Proof. reflexivity. Qed.

Lemma bind_call {A B} (c : Call) (f : World -> A * World) (k : A -> M B) (s : Sys) :
  bind (call c f) k s = k (f (world s)).1 (called s c (f (world s)).2).
Proof. reflexivity. Qed.

Lemma bind_modify_job {B} (f : LastJobInfo -> LastJobInfo) (k : unit -> M B) (s : Sys) :
  bind (modify_job f) k s = k tt (with_job s (f (last_job_info_ s))).
Proof. reflexivity. Qed.

Lemma bind_get_job {B} (k : LastJobInfo -> M B) (s : Sys) :
  bind get_job k s = k (last_job_info_ s) s.
Proof. reflexivity. Qed.

Lemma run_ret {A} (a : A) (s : Sys) : ret a s = Returned a s.
Proof. reflexivity. Qed.

Lemma bind_Returned {A B} (m : M A) (k : A -> M B) (s s' : Sys) (a : A) :
  m s = Returned a s' -> bind m k s = k a s'.
Proof. unfold bind. now intros ->. Qed.

Lemma bind_Stopped {A B} (m : M A) (k : A -> M B) (s s' : Sys) (why : Stop) :
  m s = Stopped why s' -> bind m k s = Stopped why s'.
Proof. unfold bind. now intros ->. Qed.

Lemma bind_bind {A B C} (m : M A) (f : A -> M B) (g : B -> M C) (s : Sys) :
  bind (bind m f) g s = bind m (fun a => bind (f a) g) s.
Proof. unfold bind. now destruct (m s). Qed.

Ltac step :=
  first [ rewrite bind_bind | rewrite bind_LOG | rewrite bind_query | rewrite bind_call
        | rewrite bind_modify_job | rewrite bind_get_job | rewrite bind_ret
        | rewrite run_ret ].

(** The loop of [GetPerfettoTraceInfo] appends the specification's inputs to
    the vector, logs the specification's errors, and touches nothing else. *)
Lemma GetPerfettoTraceInfo_loop_spec (db : DbHandle)
    (histories : list AppLaunchHistoryModel.t) :
  forall (perfetto_traces : list CompilationInput) (s : Sys),
    GetPerfettoTraceInfo_loop db histories perfetto_traces s
    = Returned (perfetto_traces ++ compilation_inputs db (world s) histories)
               (logged s (trace_errors db (world s) histories)).
Proof.
  induction histories as [|history histories IH]; intros acc s.
  - cbn. now rewrite app_nil_r, logged_nil.
  - cbn [GetPerfettoTraceInfo_loop]. step.
    unfold compilation_inputs, compilation_input, trace_errors in *.
    cbn [omap list_omap flat_map].
    destruct (RawTraceModel_SelectByHistoryId db (AppLaunchHistoryModel.id history) (world s))
      as [raw_trace|] eqn:Hraw.
    + unfold effective_timestamp_limit.
      destruct (AppLaunchHistoryModel.report_fully_drawn_ns history) as [rfd|];
        [|destruct (AppLaunchHistoryModel.total_time_ns history) as [total|]];
        repeat step; rewrite IH; sys_fields;
        rewrite <- ?app_assoc, ?logged_logged; reflexivity.
    + step. rewrite IH. sys_fields. now rewrite logged_logged.
Qed.

Lemma bind_GetPerfettoTraceInfo {B} (db : DbHandle)
    (histories : list AppLaunchHistoryModel.t)
    (k : list CompilationInput -> M B) (s : Sys) :
  bind (GetPerfettoTraceInfo db histories) k s
  = k (compilation_inputs db (world s) histories)
      (logged s (trace_errors db (world s) histories)).
Proof.
  apply bind_Returned. unfold GetPerfettoTraceInfo.
  now rewrite GetPerfettoTraceInfo_loop_spec.
Qed.

Ltac step ::=
  first [ rewrite bind_bind | rewrite bind_LOG | rewrite bind_query | rewrite bind_call
        | rewrite bind_modify_job | rewrite bind_get_job | rewrite bind_ret
        | rewrite bind_GetPerfettoTraceInfo | rewrite run_ret ].

(** *** Quiet computations *)

Lemma quiet_ret {A} (a : A) : quiet (ret a).
Proof. intros s. exists []. now sys_fields. Qed.

Lemma quiet_LOG (sev : Severity) (m : Msg) : quiet (LOG sev m).
Proof. intros s. exists []. now sys_fields. Qed.

Lemma quiet_LOG_FATAL {A} (m : Msg) : quiet (@LOG_FATAL _ A m).
Proof. intros s. exists []. now sys_fields. Qed.

Lemma quiet_image_replaced {A} : quiet (@image_replaced _ A).
Proof. intros s. exists []. now sys_fields. Qed.

Lemma quiet_query {A} (q : World -> A) : quiet (query q).
Proof. intros s. exists []. now sys_fields. Qed.

Lemma quiet_call {A} (c : Call) (f : World -> A * World) :
  is_attempt c = false -> quiet (call c f).
Proof.
  intros Hc s. exists [c]. unfold call, attempts. sys_fields. cbn. now rewrite Hc.
Qed.

Lemma attempts_app (evs1 evs2 : list Call) :
  attempts (evs1 ++ evs2) = (attempts evs1 + attempts evs2)%nat.
Proof. unfold attempts. now rewrite List.filter_app, length_app. Qed.

Lemma quiet_bind {A B} (m : M A) (k : A -> M B) :
  quiet m -> (forall a, quiet (k a)) -> quiet (bind m k).
Proof.
  intros Hm Hk s. destruct (Hm s) as (evs1 & Hc1 & Ha1 & Hj1).
  unfold bind. destruct (m s) as [a s1|why s1]; sys_fields.
  - destruct (Hk a s1) as (evs2 & Hc2 & Ha2 & Hj2).
    exists (evs2 ++ evs1). rewrite Hc2, Hc1, Hj2, Hj1, attempts_app, Ha1, Ha2.
    now rewrite app_assoc.
  - now exists evs1.
Qed.

Lemma quiet_if {A} (b : bool) (m1 m2 : M A) :
  quiet m1 -> quiet m2 -> quiet (if b then m1 else m2).
Proof. now destruct b. Qed.

Lemma quiet_option {A B} (o : option A) (m1 : A -> M B) (m2 : M B) :
  (forall a, quiet (m1 a)) -> quiet m2 ->
  quiet (match o with Some a => m1 a | None => m2 end).
Proof. now destruct o. Qed.

Create HintDb quiet.
#[local] Hint Resolve quiet_ret quiet_LOG quiet_LOG_FATAL quiet_image_replaced
  quiet_query quiet_bind quiet_if quiet_option : quiet.
#[local] Hint Extern 1 (quiet (call _ _)) => (apply quiet_call; reflexivity) : quiet.

Lemma quiet_StartViaFork (params : CompilerForkParameters) : quiet (StartViaFork params).
Proof. unfold StartViaFork. auto 20 with quiet. Qed.

Lemma quiet_GetPerfettoTraceInfo (db : DbHandle) (histories : list AppLaunchHistoryModel.t) :
  quiet (GetPerfettoTraceInfo db histories).
Proof.
  intros s. exists []. unfold GetPerfettoTraceInfo.
  rewrite GetPerfettoTraceInfo_loop_spec. now sys_fields.
Qed.


Section CompileActivityFacts.
Variables (db : DbHandle) (package_id : Z) (package_name activity_name : string)
  (version : Z) (params : ControllerParameters).

Let file_path := CompiledTraceFileModel_FilePath package_name activity_name version.


(** Step 2: the output file is there and recompilation is off. *)
Lemma CompileActivity_file_exists (s : Sys) :
  negb (recompile params) && filesystem_exists file_path (world s) = true ->
  CompileActivity db package_id package_name activity_name version params s
  = Returned true (logged s [(DEBUG, CompiledTraceExists file_path)]).
Proof.
  intros Hshort. unfold CompileActivity. step. fold file_path. rewrite Hshort.
  now do 2 step.
Qed.

(** Step 3: no activity row. *)
Lemma CompileActivity_no_activity (s : Sys) :
  negb (recompile params) && filesystem_exists file_path (world s) = false ->
  ActivityModel_SelectByNameAndPackageId db activity_name package_id (world s) = None ->
  CompileActivity db package_id package_name activity_name version params s
  = Returned false (logged s [(ERROR, CannotFindActivity package_id activity_name)]).
Proof.
  intros Hshort Hact. unfold CompileActivity. step. fold file_path. rewrite Hshort.
  step. rewrite Hact. now do 2 step.
Qed.

(** Step 5: fewer inputs than [min_traces]. *)
Lemma CompileActivity_too_few (s : Sys) (activity : ActivityModel.t) :
  negb (recompile params) && filesystem_exists file_path (world s) = false ->
  ActivityModel_SelectByNameAndPackageId db activity_name package_id (world s)
  = Some activity ->
  (N.of_nat (length (inputs_of_activity db (world s) activity)) <? min_traces params)%N
  = true ->
  CompileActivity db package_id package_name activity_name version params s
  = Returned false
      (logged s
         (trace_errors db (world s)
            (AppLaunchHistoryModel_SelectActivityHistoryForCompile db
               (ActivityModel.id activity) (world s))
          ++ [(DEBUG, TooFewTraces (length (inputs_of_activity db (world s) activity))
                        (min_traces params))])).
Proof.
  intros Hshort Hact Hfew. unfold CompileActivity. step. fold file_path. rewrite Hshort.
  step. rewrite Hact. do 2 step. sys_fields.
  unfold inputs_of_activity in Hfew. rewrite Hfew. do 2 step.
  now rewrite logged_logged.
Qed.

(** Steps 6 and 7: the evidence check passed.  The counter is incremented,
    [MkdirWithParents] is called, and what follows is quiet. *)
Lemma CompileActivity_attempt (s : Sys) (activity : ActivityModel.t) :
  negb (recompile params) && filesystem_exists file_path (world s) = false ->
  ActivityModel_SelectByNameAndPackageId db activity_name package_id (world s)
  = Some activity ->
  (N.of_nat (length (inputs_of_activity db (world s) activity)) <? min_traces params)%N
  = false ->
  exists (rest : M bool) (s1 : Sys),
    CompileActivity db package_id package_name activity_name version params s
    = rest (called s1 (CallMkdirWithParents file_path)
              (CompiledTraceFileModel_MkdirWithParents file_path (world s)).2)
    /\ quiet rest
    /\ world s1 = world s
    /\ calls s1 = calls s
    /\ last_job_info_ s1
       = mkJob (last_run_ns_ (last_job_info_ s))
               (size_incr (activities_last_compiled_ (last_job_info_ s))).
Proof.
  intros Hshort Hact Hfew. unfold CompileActivity. step. fold file_path. rewrite Hshort.
  step. rewrite Hact. do 2 step. sys_fields.
  unfold inputs_of_activity in Hfew. rewrite Hfew. do 2 step.
  destruct (inode_textcache params) as [path|]; repeat step; sys_fields;
    (eexists _, _; split; [reflexivity|]; split;
     [|now sys_fields]);
    auto 20 using quiet_StartViaFork with quiet.
Qed.

(** What one per-activity compile does to the counter: one more when it is
    attempted, nothing otherwise; and one [MkdirWithParents] call exactly
    when it is attempted.  This holds whatever happens to the child. *)
Lemma CompileActivity_counts (s : Sys) :
  let r := CompileActivity db package_id package_name activity_name version params s in
  let hit := attempted db package_id package_name activity_name version params (world s) in
  exists evs,
    calls (final r) = evs ++ calls s
    /\ attempts evs = (if hit then 1 else 0)%nat
    /\ last_job_info_ (final r)
       = if hit
         then mkJob (last_run_ns_ (last_job_info_ s))
                    (size_incr (activities_last_compiled_ (last_job_info_ s)))
         else last_job_info_ s.
Proof.
  cbv zeta. unfold attempted. fold file_path.
  destruct (negb (recompile params) && filesystem_exists file_path (world s)) eqn:Hshort;
    cbn [negb andb].
  { rewrite CompileActivity_file_exists by exact Hshort. exists []. now sys_fields. }
  destruct (ActivityModel_SelectByNameAndPackageId db activity_name package_id (world s))
    as [activity|] eqn:Hact.
  2:{ rewrite CompileActivity_no_activity by assumption. exists []. now sys_fields. }
  destruct (N.of_nat (length (inputs_of_activity db (world s) activity))
            <? min_traces params)%N eqn:Hfew; cbn [negb].
  { rewrite (CompileActivity_too_few s activity) by assumption. exists []. now sys_fields. }
  destruct (CompileActivity_attempt s activity Hshort Hact Hfew)
    as (rest & s1 & Heq & Hquiet & Hw & Hc & Hj).
  rewrite Heq.
  destruct (Hquiet (called s1 (CallMkdirWithParents file_path)
                      (CompiledTraceFileModel_MkdirWithParents file_path (world s)).2))
    as (evs & Hc' & Ha & Hj').
  exists (evs ++ [CallMkdirWithParents file_path]). rewrite Hc', Hj'. sys_fields.
  rewrite Hc, Hj, attempts_app, Ha, <- app_assoc. now repeat split.
Qed.

End CompileActivityFacts.

(** *** Keeping count through the loops *)

Lemma keeps_count_quiet {A} (m : M A) : quiet m -> keeps_count m.
Proof.
  intros Hq s k Hk. destruct (Hq s) as (evs & Hc & Ha & Hj).
  exists evs. rewrite Hc, Hj, Ha, Z.add_0_r. now repeat split.
Qed.

Lemma keeps_count_bind {A B} (m : M A) (f : A -> M B) :
  keeps_count m -> (forall a, keeps_count (f a)) -> keeps_count (bind m f).
Proof.
  intros Hm Hf s k Hk. destruct (Hm s k Hk) as (evs1 & Hc1 & Ha1 & Hl1).
  unfold bind. destruct (m s) as [a s1|why s1]; sys_fields.
  - destruct (Hf a s1 _ Ha1) as (evs2 & Hc2 & Ha2 & Hl2).
    exists (evs2 ++ evs1). rewrite Hc2, Hc1, Ha2, Hl2, Hl1, attempts_app, <- app_assoc.
    repeat split. f_equal. lia.
  - now exists evs1.
Qed.

Lemma keeps_count_CompileActivity (db : DbHandle) (package_id : Z)
    (package_name activity_name : string) (version : Z) (params : ControllerParameters) :
  keeps_count (CompileActivity db package_id package_name activity_name version params).
Proof.
  intros s k Hk.
  destruct (CompileActivity_counts db package_id package_name activity_name version params s)
    as (evs & Hc & Ha & Hj).
  exists evs. rewrite Hc, Hj, Ha.
  destruct (attempted _ _ _ _ _ _ _); sys_fields.
  - rewrite Hk. unfold size_incr. repeat split.
    change (Z.of_nat 1) with 1. now rewrite Zplus_mod_idemp_l.
  - rewrite Hk, Z.add_0_r. now repeat split.
Qed.

Lemma keeps_count_for_each {A} (body : A -> M bool) (l : list A) :
  (forall x, keeps_count (body x)) ->
  forall ret_, keeps_count (for_each body l ret_).
Proof.
  intros Hbody. induction l as [|x l IH]; intros ret_; cbn [for_each].
  - apply keeps_count_quiet, quiet_ret.
  - apply keeps_count_bind; [apply Hbody|]. intros ok. apply IH.
Qed.

Lemma keeps_count_CompilePackage (db : DbHandle) (package_name : string) (version : Z)
    (params : ControllerParameters) :
  keeps_count (CompilePackage db package_name version params).
Proof.
  unfold CompilePackage.
  apply keeps_count_bind; [apply keeps_count_quiet, quiet_query|].
  intros [package|].
  - apply keeps_count_bind; [apply keeps_count_quiet, quiet_query|].
    intros activities. apply keeps_count_for_each.
    intros activity. apply keeps_count_CompileActivity.
  - apply keeps_count_quiet. auto with quiet.
Qed.

(** *** Where the controller can stop *)

Lemma stops_at_fork_returns {A} (m : M A) : returns m -> stops_at_fork m.
Proof. intros Hr s why s' Hs. destruct (Hr s) as (a & s1 & Ha). congruence. Qed.

Lemma returns_ret {A} (a : A) : returns (ret a).
Proof. intros s. now eexists _, _. Qed.

Lemma returns_LOG (sev : Severity) (m : Msg) : returns (LOG sev m).
Proof. intros s. now eexists _, _. Qed.

Lemma returns_query {A} (q : World -> A) : returns (query q).
Proof. intros s. now eexists _, _. Qed.

Lemma returns_call {A} (c : Call) (f : World -> A * World) : returns (call c f).
Proof. intros s. now eexists _, _. Qed.

Lemma returns_modify_job (f : LastJobInfo -> LastJobInfo) : returns (modify_job f).
Proof. intros s. now eexists _, _. Qed.

Lemma returns_get_job : returns get_job.
Proof. intros s. now eexists _, _. Qed.

Lemma returns_bind {A B} (m : M A) (k : A -> M B) :
  returns m -> (forall a, returns (k a)) -> returns (bind m k).
Proof.
  intros Hm Hk s. destruct (Hm s) as (a & s1 & Ha).
  rewrite (bind_Returned m k s s1 a Ha). apply Hk.
Qed.

Lemma returns_if {A} (b : bool) (m1 m2 : M A) :
  returns m1 -> returns m2 -> returns (if b then m1 else m2).
Proof. now destruct b. Qed.

Lemma returns_option {A B} (o : option A) (m1 : A -> M B) (m2 : M B) :
  (forall a, returns (m1 a)) -> returns m2 ->
  returns (match o with Some a => m1 a | None => m2 end).
Proof. now destruct o. Qed.

Lemma returns_GetPerfettoTraceInfo (db : DbHandle)
    (histories : list AppLaunchHistoryModel.t) :
  returns (GetPerfettoTraceInfo db histories).
Proof.
  intros s. unfold GetPerfettoTraceInfo. rewrite GetPerfettoTraceInfo_loop_spec.
  now eexists _, _.
Qed.

Lemma returns_print_each {A} (body : A -> M (list string)) (l : list A) :
  (forall x, returns (body x)) -> returns (print_each body l).
Proof.
  intros Hbody. induction l as [|x l IH]; cbn [print_each].
  - apply returns_ret.
  - apply returns_bind; [apply Hbody|]. intros lines.
    apply returns_bind; [apply IH|]. intros more. apply returns_ret.
Qed.

Create HintDb returns.
#[local] Hint Resolve returns_ret returns_LOG returns_query returns_call
  returns_modify_job returns_get_job returns_bind returns_if returns_option
  returns_GetPerfettoTraceInfo returns_print_each : returns.

Lemma returns_DumpAllPackages (db : DbHandle) : returns (DumpAllPackages db).
Proof.
  unfold DumpAllPackages, DumpPackage, DumpPackageActivity.
  auto 30 with returns.
Qed.

Lemma stops_at_fork_bind {A B} (m : M A) (k : A -> M B) :
  stops_at_fork m -> (forall a, stops_at_fork (k a)) -> stops_at_fork (bind m k).
Proof.
  intros Hm Hk s why s'. unfold bind.
  destruct (m s) as [a s1|why1 s1] eqn:Hms.
  - apply Hk.
  - intros [= <- <-]. exact (Hm s why1 s1 Hms).
Qed.

Lemma stops_at_fork_if {A} (b : bool) (m1 m2 : M A) :
  stops_at_fork m1 -> stops_at_fork m2 -> stops_at_fork (if b then m1 else m2).
Proof. now destruct b. Qed.

Lemma stops_at_fork_option {A B} (o : option A) (m1 : A -> M B) (m2 : M B) :
  (forall a, stops_at_fork (m1 a)) -> stops_at_fork m2 ->
  stops_at_fork (match o with Some a => m1 a | None => m2 end).
Proof. now destruct o. Qed.

Lemma stops_at_fork_StartViaFork (params : CompilerForkParameters) :
  stops_at_fork (StartViaFork params).
Proof.
  intros s why s'. unfold StartViaFork. step.
  case_bool_decide as Hfail.
  - unfold LOG_FATAL. intros [= <- <-]. now cbn.
  - case_bool_decide as Hparent.
    + do 2 step. destruct (WIFEXITED _); cbn [negb]; do 2 step; discriminate.
    + do 2 step. destruct (Execve _ _ _).1; [step; discriminate|].
      unfold image_replaced. intros [= <- <-]. now cbn.
Qed.

Lemma stops_at_fork_for_each {A} (body : A -> M bool) (l : list A) :
  (forall x, stops_at_fork (body x)) ->
  forall ret_, stops_at_fork (for_each body l ret_).
Proof.
  intros Hbody. induction l as [|x l IH]; intros ret_; cbn [for_each].
  - apply stops_at_fork_returns, returns_ret.
  - apply stops_at_fork_bind; [apply Hbody|]. intros ok. apply IH.
Qed.

Create HintDb stops.
#[local] Hint Resolve stops_at_fork_bind stops_at_fork_if stops_at_fork_option
  stops_at_fork_StartViaFork stops_at_fork_for_each : stops.
#[local] Hint Extern 5 (stops_at_fork _) =>
  (apply stops_at_fork_returns; solve [auto 10 with returns]) : stops.

Lemma stops_at_fork_CompileActivity (db : DbHandle) (package_id : Z)
    (package_name activity_name : string) (version : Z) (params : ControllerParameters) :
  stops_at_fork (CompileActivity db package_id package_name activity_name version params).
Proof. unfold CompileActivity. auto 40 with stops. Qed.

Lemma stops_at_fork_CompilePackage (db : DbHandle) (package_name : string) (version : Z)
    (params : ControllerParameters) :
  stops_at_fork (CompilePackage db package_name version params).
Proof.
  unfold CompilePackage. auto 20 using stops_at_fork_CompileActivity with stops.
Qed.


(** *** The child's wait status *)

Lemma StartViaFork_parent (params : CompilerForkParameters) (s : Sys) :
  let forked := Fork (world s) in
  let waited := waitpid forked.1 forked.2 in
  forked.1 > 0 ->
  StartViaFork params s
  = Returned (WIFEXITED waited.1)
      (logged
         (called (logged (called s CallFork forked.2) [(DEBUG, ForkedInto forked.1)])
                 (CallWaitpid forked.1) waited.2)
         [if WIFEXITED waited.1
          then (DEBUG, ChildTerminated (WEXITSTATUS waited.1))
          else (ERROR, ChildTerminatedAbnormally (WEXITSTATUS waited.1))]).
Proof.
  intros forked waited Hpid. unfold StartViaFork. step. fold forked.
  rewrite bool_decide_eq_false_2 by lia. rewrite bool_decide_eq_true_2 by exact Hpid.
  do 2 step. sys_fields. fold waited.
  destruct (WIFEXITED waited.1); cbn [negb]; now do 2 step.
Qed.

(** The other two ways [StartViaFork] can go, by the value of [Fork]. *)
Lemma StartViaFork_failed_fork (params : CompilerForkParameters) (s : Sys) :
  (Fork (world s)).1 = -1 ->
  StartViaFork params s
  = Stopped FatalLog (logged (called s CallFork (Fork (world s)).2) [(FATAL, FailedToFork)]).
Proof.
  intros Hpid. unfold StartViaFork. step.
  now rewrite bool_decide_eq_true_2 by exact Hpid.
Qed.

Lemma StartViaFork_child (params : CompilerForkParameters) (s : Sys) :
  let forked := Fork (world s) in
  let argv_vec := MakeCompilerParams params in
  let exec := Execve kCommandFileName argv_vec forked.2 in
  let s' := called (logged (called s CallFork forked.2)
                      [(DEBUG, ForkExec kCommandFileName argv_vec)])
                   (CallExecve kCommandFileName argv_vec) exec.2 in
  forked.1 <> -1 ->
  ~ forked.1 > 0 ->
  StartViaFork params s
  = match exec.1 with
    | None => Stopped ImageReplaced s'
    | Some _ => Returned false s'
    end.
Proof.
  intros forked argv_vec exec s' Hfail Hparent. unfold StartViaFork. step. fold forked.
  rewrite bool_decide_eq_false_2 by exact Hfail.
  rewrite bool_decide_eq_false_2 by exact Hparent.
  do 2 step. sys_fields. fold argv_vec. fold exec.
  destruct exec.1; [now step|reflexivity].
Qed.

Lemma bind_inode_textcache {B} (params : ControllerParameters) (k : unit -> M B) (s : Sys) :
  bind (match inode_textcache params with
        | Some path => LOG DEBUG (InodeTextcache path)
        | None => ret tt
        end) k s
  = k tt (logged s (match inode_textcache params with
                    | Some path => [(DEBUG, InodeTextcache path)]
                    | None => []
                    end)).
Proof.
  destruct (inode_textcache params) as [path|]; step; [reflexivity|].
  now rewrite logged_nil.
Qed.

(** A compile that passed its evidence check, up to and including its
    [MkdirWithParents]: the counter is incremented, the directory asked for,
    and what is left to run is the fork and the insertion. *)
Lemma CompileActivity_past_check (db : DbHandle) (package_id : Z)
    (package_name activity_name : string) (version : Z)
    (params : ControllerParameters) (s : Sys) (activity : ActivityModel.t) :
  let file_path := CompiledTraceFileModel_FilePath package_name activity_name version in
  let made := CompiledTraceFileModel_MkdirWithParents file_path (world s) in
  negb (recompile params) && filesystem_exists file_path (world s) = false ->
  ActivityModel_SelectByNameAndPackageId db activity_name package_id (world s)
  = Some activity ->
  (N.of_nat (length (inputs_of_activity db (world s) activity)) <? min_traces params)%N
  = false ->
  exists s1 : Sys,
    world s1 = made.2
    /\ calls s1 = CallMkdirWithParents file_path :: calls s
    /\ last_job_info_ s1
       = mkJob (last_run_ns_ (last_job_info_ s))
               (size_incr (activities_last_compiled_ (last_job_info_ s)))
    /\ CompileActivity db package_id package_name activity_name version params s
       = (if negb made.1 then
            bind (LOG ERROR (FailedToMkdirs file_path)) (fun _ => ret false)
          else
            bind (StartViaFork
                    (CompilerForkParameters_new (inputs_of_activity db (world s) activity)
                       file_path params))
              (fun started : bool =>
                 if negb started then
                   bind (LOG ERROR (CompilationFailed package_id activity_name))
                     (fun _ => ret false)
                 else
                   bind (call (CallInsert (ActivityModel.id activity) file_path)
                           (PrefetchFileModel_Insert db (ActivityModel.id activity)
                              file_path))
                     (fun compiled_trace =>
                        match compiled_trace with
                        | None =>
                            bind (LOG ERROR
                                    (CannotInsertCompiledTrace
                                       (ActivityModel.id activity) file_path))
                              (fun _ => ret false)
                        | Some _ => ret true
                        end))) s1.
Proof.
  intros file_path made Hshort Hact Hfew.
  unfold inputs_of_activity in *.
  unfold CompileActivity. step. fold file_path. rewrite Hshort.
  step. rewrite Hact. do 2 step. sys_fields. rewrite Hfew. do 2 step.
  rewrite bind_inode_textcache. step. sys_fields. fold made.
  eexists. split; [|split; [|split; [|reflexivity]]]; now sys_fields.
Qed.

(** C4.  [GetPerfettoTraceInfo] returns, in the order of the histories, one
    input for every history that has a raw-trace row and none for the others;
    the input's limit is [report_fully_drawn_ns] when that is set, whether or
    not [total_time_ns] is set too, else [total_time_ns] when set, else the
    largest 64-bit unsigned value.  It logs an error for every dropped history
    and for every history that has neither field, and changes nothing else. *)
Theorem GetPerfettoTraceInfo_effective_limits (db : DbHandle)
    (histories : list AppLaunchHistoryModel.t) (s : Sys) :
  GetPerfettoTraceInfo db histories s
  = Returned (compilation_inputs db (world s) histories)
             (logged s (trace_errors db (world s) histories)).
Proof. unfold GetPerfettoTraceInfo. now rewrite GetPerfettoTraceInfo_loop_spec. Qed.

(** C5.  A per-activity compile that reaches its evidence check (the output
    file does not short-circuit it, and the activity row is found).  With
    fewer inputs than [min_traces] it returns failure, having only logged:
    the job record is as before, and no call was made, so no directory was
    created, no child forked and no row inserted.  With [min_traces = 0] the
    check passes whatever the number of inputs, and the compile is attempted:
    the counter is incremented once, the run does not end on the too-few-traces
    line, and [MkdirWithParents] is called.  If the directory cannot be made
    the compile fails there.  If it is made, [Fork] is called next: a failed
    fork ends the process on the fatal log; the parent waits for the child it
    was given, and inserts the row exactly when the child exited normally; the
    child calls [Execve] on the compiler with the arguments composed from the
    inputs. *)
Theorem CompileActivity_evidence_check (db : DbHandle) (package_id : Z)
    (package_name activity_name : string) (version : Z)
    (params : ControllerParameters) (s : Sys) (activity : ActivityModel.t) :
  let file_path := CompiledTraceFileModel_FilePath package_name activity_name version in
  let inputs := inputs_of_activity db (world s) activity in
  let r := CompileActivity db package_id package_name activity_name version params s in
  negb (recompile params) && filesystem_exists file_path (world s) = false ->
  ActivityModel_SelectByNameAndPackageId db activity_name package_id (world s)
  = Some activity ->
  ((N.of_nat (length inputs) < min_traces params)%N ->
   exists s',
     r = Returned false s'
     /\ last_job_info_ s' = last_job_info_ s
     /\ calls s' = calls s
     /\ world s' = world s
     /\ last (log s') = Some (DEBUG, TooFewTraces (length inputs) (min_traces params)))
  /\ (min_traces params = 0%N ->
      let mkdir := CallMkdirWithParents file_path in
      let made := CompiledTraceFileModel_MkdirWithParents file_path (world s) in
      let forked := Fork made.2 in
      let waited := waitpid forked.1 forked.2 in
      let argv := MakeCompilerParams (CompilerForkParameters_new inputs file_path params) in
      last_job_info_ (final r)
      = mkJob (last_run_ns_ (last_job_info_ s))
              (size_incr (activities_last_compiled_ (last_job_info_ s)))
      /\ (forall n m, last (log (final r)) <> Some (DEBUG, TooFewTraces n m))
      /\ if made.1 then
           if bool_decide (forked.1 = -1) then
             exists s',
               r = Stopped FatalLog s'
               /\ calls s' = CallFork :: mkdir :: calls s
           else if bool_decide (forked.1 > 0) then
             calls (final r)
             = (if WIFEXITED waited.1
                then [CallInsert (ActivityModel.id activity) file_path]
                else [])
               ++ CallWaitpid forked.1 :: CallFork :: mkdir :: calls s
           else
             calls (final r) = CallExecve kCommandFileName argv :: CallFork :: mkdir :: calls s
         else
           exists s',
             r = Returned false s'
             /\ calls s' = mkdir :: calls s).
Proof.
  intros file_path inputs r Hshort Hact. subst r inputs file_path. split.
  - intros Hfew. apply N.ltb_lt in Hfew.
    rewrite (CompileActivity_too_few db package_id package_name activity_name version
               params s activity Hshort Hact Hfew).
    eexists. split; [reflexivity|]. sys_fields. repeat split.
    now rewrite app_assoc, last_snoc.
  - intros Hzero mkdir made forked waited argv.
    assert (Hfew : (N.of_nat (length (inputs_of_activity db (world s) activity))
                    <? min_traces params)%N = false)
      by (rewrite Hzero; apply N.ltb_ge; lia).
    destruct (CompileActivity_past_check db package_id package_name activity_name version
                params s activity Hshort Hact Hfew)
      as (s1 & Hw & Hc & Hj & ->).
    fold made in Hw |- *. subst mkdir.
    destruct made.1; cbn [negb].
    2:{ do 2 step. sys_fields. rewrite Hj, last_snoc.
        split; [reflexivity|]. split; [discriminate|].
        eexists. split; [reflexivity|]. now sys_fields. }
    assert (Hforked : Fork (world s1) = forked) by (now rewrite Hw).
    case_bool_decide as Hfail.
    { rewrite <- Hforked in Hfail.
      rewrite (bind_Stopped _ _ _ _ _ (StartViaFork_failed_fork _ s1 Hfail)).
      sys_fields. rewrite Hj, last_snoc.
      split; [reflexivity|]. split; [discriminate|].
      eexists. split; [reflexivity|]. sys_fields. now rewrite Hc. }
    case_bool_decide as Hparent.
    { assert (Hwaited : waitpid (Fork (world s1)).1 (Fork (world s1)).2 = waited)
        by (now rewrite Hforked).
      rewrite <- Hforked in Hparent.
      rewrite (bind_Returned _ _ _ _ _ (StartViaFork_parent _ s1 Hparent)).
      rewrite Hwaited, Hforked.
      destruct (WIFEXITED waited.1); cbn [negb].
      - step. sys_fields.
        destruct (PrefetchFileModel_Insert db (ActivityModel.id activity) _ waited.2).1;
          repeat step; sys_fields; rewrite Hj, Hc, last_snoc;
          (split; [reflexivity|]); (split; [discriminate|reflexivity]).
      - do 2 step. sys_fields. rewrite Hj, Hc, last_snoc.
        split; [reflexivity|]. split; [discriminate|reflexivity]. }
    rewrite <- Hforked in Hfail, Hparent.
    pose proof (StartViaFork_child
                  (CompilerForkParameters_new (inputs_of_activity db (world s) activity)
                     (CompiledTraceFileModel_FilePath package_name activity_name version)
                     params) s1 Hfail Hparent) as Hchild.
    cbv zeta in Hchild. fold argv in Hchild.
    destruct (Execve kCommandFileName argv (Fork (world s1)).2).1.
    + rewrite (bind_Returned _ _ _ _ _ Hchild). cbn [negb]. do 2 step. sys_fields.
      rewrite Hj, Hc, last_snoc. split; [reflexivity|]. split; [discriminate|reflexivity].
    + rewrite (bind_Stopped _ _ _ _ _ Hchild). sys_fields.
      rewrite Hj, Hc, last_snoc. split; [reflexivity|]. split; [discriminate|reflexivity].
Qed.

(** C1, as the code has it.  A compile attempt whose directory was made and
    whose [Fork] gave a child.  If the child did not exit normally, the
    compile fails: an error is logged and no row is inserted.  If the child
    exited normally, with status 0 or any other, the status is logged at debug
    level, the child counts as a success, the row is inserted, and the compile
    succeeds exactly when the insertion does. *)
Theorem CompileActivity_wait_status (db : DbHandle) (package_id : Z)
    (package_name activity_name : string) (version : Z)
    (params : ControllerParameters) (s : Sys) (activity : ActivityModel.t) :
  let file_path := CompiledTraceFileModel_FilePath package_name activity_name version in
  let made := CompiledTraceFileModel_MkdirWithParents file_path (world s) in
  let forked := Fork made.2 in
  let waited := waitpid forked.1 forked.2 in
  let inserted := PrefetchFileModel_Insert db (ActivityModel.id activity) file_path waited.2 in
  let r := CompileActivity db package_id package_name activity_name version params s in
  attempted db package_id package_name activity_name version params (world s) = true ->
  ActivityModel_SelectByNameAndPackageId db activity_name package_id (world s)
  = Some activity ->
  made.1 = true ->
  forked.1 > 0 ->
  if WIFEXITED waited.1 then
    exists s',
      r = Returned (bool_decide (is_Some inserted.1)) s'
      /\ calls s'
         = [CallInsert (ActivityModel.id activity) file_path; CallWaitpid forked.1;
            CallFork; CallMkdirWithParents file_path] ++ calls s
      /\ (DEBUG, ChildTerminated (WEXITSTATUS waited.1)) ∈ log s'
  else
    exists s',
      r = Returned false s'
      /\ calls s'
         = [CallWaitpid forked.1; CallFork; CallMkdirWithParents file_path] ++ calls s
      /\ (ERROR, ChildTerminatedAbnormally (WEXITSTATUS waited.1)) ∈ log s'.
Proof.
  intros file_path made forked waited inserted r Hhit Hact Hmade Hpid. subst r.
  unfold attempted in Hhit. fold file_path in Hhit. rewrite Hact in Hhit.
  apply andb_prop in Hhit. destruct Hhit as [Hshort Hfew].
  apply negb_true_iff in Hshort. apply negb_true_iff in Hfew.
  unfold inputs_of_activity in Hfew.
  unfold CompileActivity. step. fold file_path. rewrite Hshort.
  step. rewrite Hact. do 2 step. sys_fields. rewrite Hfew. do 2 step.
  rewrite bind_inode_textcache. step. sys_fields. fold made. rewrite Hmade. cbn [negb].
  match goal with
  | |- context [bind (StartViaFork ?p) ?k ?s1] =>
      rewrite (bind_Returned _ k s1 _ _ (StartViaFork_parent p s1 Hpid))
  end.
  sys_fields. fold forked. fold waited.
  destruct (WIFEXITED waited.1); cbn [negb].
  - step. sys_fields. fold inserted.
    destruct inserted.1 as [row|]; repeat step; eexists;
      (split; [reflexivity|]); sys_fields; (split; [reflexivity|]); set_solver.
  - do 2 step. eexists. split; [reflexivity|]. sys_fields.
    split; [reflexivity|]. set_solver.
Qed.

(** C7, as the code has it.  The per-activity entry point fails when the
    package is not in the store.  When the package is there but the activity
    is not under it, the result is failure unless recompilation is off and the
    derived output file exists on disk: that is checked before the activity is
    looked up, and the result is then success. *)
Theorem Compile_activity_not_found (db_path package_name activity_name : string)
    (version : Z) (params : ControllerParameters) (s : Sys) :
  let opened := SchemaModel_GetOrCreate db_path (world s) in
  let file_path := CompiledTraceFileModel_FilePath package_name activity_name version in
  let r := Compile_activity db_path package_name activity_name version params s in
  match PackageModel_SelectByNameAndVersion opened.1 package_name version opened.2 with
  | None =>
      exists s', r = Returned false s' /\ calls s' = CallGetOrCreate db_path :: calls s
  | Some package =>
      ActivityModel_SelectByNameAndPackageId opened.1 activity_name
        (PackageModel.id package) opened.2 = None ->
      exists s',
        r = Returned (negb (recompile params) && filesystem_exists file_path opened.2) s'
        /\ calls s' = CallGetOrCreate db_path :: calls s
  end.
Proof.
  intros opened file_path r. subst r. unfold Compile_activity. do 2 step.
  sys_fields. fold opened.
  destruct (PackageModel_SelectByNameAndVersion opened.1 package_name version opened.2)
    as [package|].
  - intros Hact.
    destruct (negb (recompile params) && filesystem_exists file_path opened.2) eqn:Hshort.
    + rewrite CompileActivity_file_exists by exact Hshort. now eexists.
    + rewrite CompileActivity_no_activity by assumption. now eexists.
  - do 2 step. now eexists.
Qed.

(** C6.  A device-wide pass.  It starts by setting the counter to 0: it
    runs as it would have with the counter already 0.  The counter it leaves
    is the number of attempts made during the pass, as a [size_t], whatever
    the counter was before.  Each per-activity compile adds one to it exactly when it is
    attempted, that is, when it reaches the evidence check and has at least
    [min_traces] inputs, whatever its child does afterwards.  When the pass
    returns, with either result, [last_run_ns_] is the time read at its end.
    The pass returns unless the process ends at a fork. *)
Theorem CompileAppsOnDevice_job_info (db : DbHandle) (params : ControllerParameters)
    (s : Sys) :
  let r := CompileAppsOnDevice db params s in
  r = CompileAppsOnDevice db params
        (with_job s (mkJob (last_run_ns_ (last_job_info_ s)) 0))
  /\ (exists evs,
        calls (final r) = evs ++ calls s
        /\ activities_last_compiled_ (last_job_info_ (final r))
           = Z.of_nat (attempts evs) mod 2 ^ 64)
  /\ (forall package_id package_name activity_name version (s1 : Sys),
        let r1 := CompileActivity db package_id package_name activity_name version
                    params s1 in
        let hit := attempted db package_id package_name activity_name version params
                     (world s1) in
        exists evs,
          calls (final r1) = evs ++ calls s1
          /\ attempts evs = (if hit then 1 else 0)%nat
          /\ last_job_info_ (final r1)
             = if hit
               then mkJob (last_run_ns_ (last_job_info_ s1))
                          (size_incr (activities_last_compiled_ (last_job_info_ s1)))
               else last_job_info_ s1)
  /\ (forall b s', r = Returned b s' -> last_run_ns_ (last_job_info_ s') = time (world s'))
  /\ (forall why s', r = Stopped why s' -> at_fork s').
Proof.
  intros r. subst r. split; [reflexivity|].
  unfold CompileAppsOnDevice. do 2 step. sys_fields.
  set (s0 := with_job s (mkJob (last_run_ns_ (last_job_info_ s)) 0)).
  set (loop := for_each
                 (fun package =>
                    CompilePackage db (PackageModel.name package)
                      (PackageModel.version package) params)
                 (PackageModel_SelectAll db (world s)) true).
  assert (Hcount : keeps_count loop)
    by (apply keeps_count_for_each; intros package; apply keeps_count_CompilePackage).
  assert (Hstop : stops_at_fork loop)
    by (apply stops_at_fork_for_each; intros package; apply stops_at_fork_CompilePackage).
  destruct (Hcount s0 0 eq_refl) as (evs & Hc & Ha & Hl).
  destruct (loop s0) as [b s1|why s1] eqn:Hloop; sys_fields.
  - rewrite (bind_Returned loop _ s0 s1 b Hloop). do 3 step. sys_fields.
    split; [exists evs; split; [exact Hc | exact Ha]|].
    split; [intros; apply CompileActivity_counts|].
    split; [|discriminate]. now intros b' s' [= <- <-].
  - rewrite (bind_Stopped loop _ s0 s1 why Hloop). sys_fields.
    split; [exists evs; split; [exact Hc | exact Ha]|].
    split; [intros; apply CompileActivity_counts|].
    split; [discriminate|]. intros why' s' [= <- <-]. exact (Hstop s0 why s1 Hloop).
Qed.

(** The controller's report never fails to come back. *)
Lemma Dump_lines (db : DbHandle) (mutex : Mutex) (s : Sys) :
  exists package_lines s',
    DumpAllPackages db s = Returned package_lines s'
    /\ Dump db mutex s
       = Returned
           ([ "Background job:" ]
              ++ (if (try_lock mutex).1 then [] else [ "  (possible deadlock)" ])
              ++ [ if negb (bool_decide (last_run_ns_ (last_job_info_ s) = 0))
                   then "  Last run at: " +:+ TimeToString (last_run_ns_ (last_job_info_ s))
                   else "  Last run at: (None)";
                   "  Activities last compiled: "
                     +:+ pretty (activities_last_compiled_ (last_job_info_ s));
                   EmptyString ]
              ++ package_lines,
            mutex) s'.
Proof.
  destruct (returns_DumpAllPackages db s) as (package_lines & s' & Hall).
  exists package_lines, s'. split; [exact Hall|].
  unfold Dump. destruct mutex; cbn [try_lock fst snd negb unlock];
    step; rewrite (bind_Returned _ _ _ _ _ Hall); step;
    now rewrite <- ?app_assoc.
Qed.

End ControllerFacts.

(** ** The two dump surfaces *)

Section DumpFacts.
Context `{PerfettoConsumer.PerfettoConsumerRaw} `{Controller.Platform}.

(** C9, as the code has it.  Both [Dump] functions take their mutex with
    [try_lock], which does not block, print their entries whether or not they
    got it, and leave the mutex as they found it.  The controller's report
    carries the line "  (possible deadlock)" right after its heading exactly
    when the lock was not obtained, and is otherwise the same.  The tracker's
    report is the same whether or not the lock was obtained: nothing in it
    tells the two apart. *)
Theorem Dump_try_lock :
  (forall (mutex : Mutex) (s : PerfettoConsumer.Impl),
     PerfettoConsumer.Dump mutex s = ((PerfettoConsumer.Dump MutexFree s).1, mutex))
  /\ (forall (db : Controller.DbHandle) (s : Controller.Sys),
        exists rest s',
          Controller.Dump db MutexFree s
          = Controller.Returned ("Background job:" :: rest, MutexFree) s'
          /\ forall mutex,
               (try_lock mutex).1 = false ->
               Controller.Dump db mutex s
               = Controller.Returned
                   ("Background job:" :: "  (possible deadlock)" :: rest, mutex) s').
Proof.
  split.
  - intros mutex s. unfold PerfettoConsumer.Dump. now destruct mutex.
  - intros db s.
    destruct (Dump_lines db MutexFree s) as (package_lines & s' & Hall & Hfree).
    eexists _, s'. split; [exact Hfree|].
    intros mutex Hheld.
    destruct (Dump_lines db mutex s) as (package_lines' & s'' & Hall' & Hdump).
    rewrite Hall in Hall'. injection Hall' as <- <-.
    rewrite Hdump, Hheld. reflexivity.
Qed.

End DumpFacts.

(** ** Scenarios on the test platform *)

#[local] Existing Instance Controller.fake_platform.

(** Two usable traces against [min_traces = 3]: the first scenario of the
    test plan.  And no usable trace at all against [min_traces = 0]: the
    attempt is counted, the directory made, the compiler forked and waited
    for, and its output recorded. *)
Lemma CompileActivity_evidence_check_witness :
  (let s := Controller.demo_sys (Controller.demo_world 2 [] [42] [0]) in
   exists s',
     Controller.CompileActivity tt 1 "pkg" "Main" 7 (Controller.demo_params false 3) s
     = Controller.Returned false s'
     /\ Controller.last_job_info_ s' = Controller.last_job_info_ s
     /\ Controller.calls s' = Controller.calls s
     /\ Controller.world s' = Controller.world s
     /\ last (Controller.log s') = Some (DEBUG, Controller.TooFewTraces 2 3))
  /\ (let s := Controller.demo_sys (Controller.demo_world 0 [] [42] [0]) in
      let r := Controller.CompileActivity tt 1 "pkg" "Main" 7
                 (Controller.demo_params false 0) s in
      Controller.last_job_info_ (Controller.final r) = Controller.mkJob 0 6
      /\ Controller.calls (Controller.final r)
         = [Controller.CallInsert 10 Controller.demo_file_path; Controller.CallWaitpid 42;
            Controller.CallFork; Controller.CallMkdirWithParents Controller.demo_file_path]).
Proof.
  split.
  - intros s.
    apply (proj1 (@CompileActivity_evidence_check Controller.fake_platform tt 1 "pkg" "Main" 7
                    (Controller.demo_params false 3) s
                    (Controller.ActivityModel.mk 10 "Main" 1) eq_refl eq_refl)).
    vm_compute. reflexivity.
  - intros s r.
    destruct (proj2 (@CompileActivity_evidence_check Controller.fake_platform tt 1 "pkg"
                       "Main" 7 (Controller.demo_params false 0) s
                       (Controller.ActivityModel.mk 10 "Main" 1) eq_refl eq_refl) eq_refl)
      as (Hjob & _ & Hcalls).
    split; [exact Hjob | exact Hcalls].
Defined.

(** Three traces, the child exits normally with status 0: the second
    scenario of the test plan. *)
Lemma CompileActivity_wait_status_witness :
  let s := Controller.demo_sys (Controller.demo_world 3 [] [42] [0]) in
  exists s',
    Controller.CompileActivity tt 1 "pkg" "Main" 7 (Controller.demo_params false 3) s
    = Controller.Returned true s'
    /\ Controller.calls s'
       = [Controller.CallInsert 10 Controller.demo_file_path; Controller.CallWaitpid 42;
          Controller.CallFork; Controller.CallMkdirWithParents Controller.demo_file_path]
    /\ (DEBUG, Controller.ChildTerminated 0) ∈ Controller.log s'.
Proof.
  exact (@CompileActivity_wait_status Controller.fake_platform tt 1 "pkg" "Main" 7
           (Controller.demo_params false 3)
           (Controller.demo_sys (Controller.demo_world 3 [] [42] [0]))
           (Controller.ActivityModel.mk 10 "Main" 1)
           eq_refl eq_refl eq_refl eq_refl).
Defined.

(** The child exits normally with status 1 (wait status 256): the compile
    succeeds and the row is inserted. *)
Lemma nonzero_exit_is_taken_for_success :
  let s := Controller.demo_sys (Controller.demo_world 3 [] [42] [256]) in
  Controller.WIFEXITED 256 = true
  /\ Controller.WEXITSTATUS 256 = 1
  /\ exists s',
       Controller.Compile_activity "db" "pkg" "Main" 7 (Controller.demo_params false 3) s
       = Controller.Returned true s'
       /\ last (Controller.log s') = Some (DEBUG, Controller.ChildTerminated 1)
       /\ Controller.prefetch_files (Controller.world s')
          = [Controller.PrefetchFileModel.mk 1 10 Controller.demo_file_path].
Proof.
  intros s. split; [reflexivity|]. split; [reflexivity|].
  eexists. split; [vm_compute; reflexivity|]. split; reflexivity.
Qed.

(** The package is in the store, the activity is not, and recompilation is
    on: failure. *)
Lemma Compile_activity_not_found_witness :
  let s := Controller.demo_sys (Controller.demo_world 3 [] [42] [0]) in
  exists s',
    Controller.Compile_activity "db" "pkg" "Settings" 7 (Controller.demo_params true 3) s
    = Controller.Returned false s'
    /\ Controller.calls s' = [Controller.CallGetOrCreate "db"].
Proof.
  exact (@Compile_activity_not_found Controller.fake_platform "db" "pkg" "Settings" 7
           (Controller.demo_params true 3)
           (Controller.demo_sys (Controller.demo_world 3 [] [42] [0])) eq_refl).
Defined.

(** The package is in the store, the activity is not, recompilation is off
    and the derived output file is on disk: success. *)
Lemma missing_activity_with_output_file_succeeds :
  let w := Controller.demo_world 3
             ["/data/misc/iorapd/pkg/7/Settings/compiled_traces/compiled_trace.pb"]
             [42] [0] in
  Controller.PackageModel_SelectByNameAndVersion tt "pkg" 7 w
  = Some (Controller.PackageModel.mk 1 "pkg" 7)
  /\ Controller.ActivityModel_SelectByNameAndPackageId tt "Settings" 1 w = None
  /\ exists s',
       Controller.Compile_activity "db" "pkg" "Settings" 7
         (Controller.demo_params false 3) (Controller.demo_sys w)
       = Controller.Returned true s'.
Proof.
  intros w. split; [reflexivity|]. split; [reflexivity|].
  eexists. vm_compute. reflexivity.
Qed.

(** The tracker's report for one in-flight session while another thread
    holds the mutex: no line of it mentions a possible deadlock. *)
Lemma tracker_dump_without_annotation :
  let s := PerfettoConsumer.after [PerfettoConsumer.OpCreate []] [1] in
  (try_lock MutexHeldElsewhere).1 = false
  /\ PerfettoConsumer.Dump MutexHeldElsewhere s
     = ([ "Perfetto consumer state:";
          "  Last destroyed handle: 0";
          "  Last created handle: 1";
          EmptyString;
          "  In-flight handles:";
          "    Handle 1";
          "      Kind: kCreated";
          "      Perfetto State: 0";
          "      Started tracing at: 0";
          "      Last transition at: 0";
          EmptyString ], MutexHeldElsewhere)
  /\ existsb mentions_deadlock (PerfettoConsumer.Dump MutexHeldElsewhere s).1 = false.
Proof. intros s. split; [reflexivity|]. split; vm_compute; reflexivity. Qed.

(** The controller's report in the same situation carries the line. *)
Example controller_dump_with_annotation :
  let s := Controller.demo_sys (Controller.demo_world 0 [] [] []) in
  exists lines s',
    Controller.Dump tt MutexHeldElsewhere s
    = Controller.Returned (lines, MutexHeldElsewhere) s'
    /\ take 4 lines
       = [ "Background job:"; "  (possible deadlock)"; "  Last run at: (None)";
           "  Activities last compiled: 5" ]
    /\ existsb mentions_deadlock lines = true.
Proof. intros s. eexists _, _. split; [vm_compute; reflexivity|]. split; reflexivity. Qed.

(** A destroyed handle and a handle that was never issued, with handle 2
    still in flight. *)
Lemma untracked_handle_inference_witness :
  let s := PerfettoConsumer.after
             [PerfettoConsumer.OpCreate []; PerfettoConsumer.OpCreate [];
              PerfettoConsumer.OpDestroy 1] [1; 2] in
  PerfettoConsumer.states_ s !! 1 = None
  /\ PerfettoConsumer.infer s 1 = PerfettoConsumer.InferDestroyed
  /\ PerfettoConsumer.states_ s !! 7 = None
  /\ PerfettoConsumer.infer s 7 = PerfettoConsumer.InferUncreated.
Proof.
  intros s.
  assert (H1 : PerfettoConsumer.states_ s !! 1 = None) by reflexivity.
  assert (H7 : PerfettoConsumer.states_ s !! 7 = None) by reflexivity.
  split; [exact H1|]. split.
  - apply (proj1 (@untracked_handle_inference PerfettoConsumer.scripted_engine s 1 H1)).
    split; [discriminate|]. vm_compute. discriminate.
  - split; [exact H7|].
    apply (proj1 (proj2
             (@untracked_handle_inference PerfettoConsumer.scripted_engine s 7 H7))).
    right. vm_compute. reflexivity.
Defined.

(** The fourth scenario of the test plan: the child is killed by a signal
    (wait status 9).  The pass fails, nothing is inserted, the attempt is
    counted, and the pass is stamped. *)
Example device_pass_with_killed_child :
  let s := Controller.demo_sys (Controller.demo_world 3 [] [42] [9]) in
  exists s',
    Controller.Compile_device "db" (Controller.demo_params false 3) s
    = Controller.Returned false s'
    /\ Controller.last_job_info_ s' = Controller.mkJob 1234 1
    /\ Controller.prefetch_files (Controller.world s') = []
    /\ Controller.attempts (Controller.calls s') = 1%nat.
Proof. intros s. eexists. split; [vm_compute; reflexivity|]. repeat split. Qed.

(** The third scenario: recompilation is off and the output file exists. *)
Example compile_skipped_when_output_exists :
  let s := Controller.demo_sys
             (Controller.demo_world 3 [Controller.demo_file_path] [42] [0]) in
  exists s',
    Controller.Compile_activity "db" "pkg" "Main" 7 (Controller.demo_params false 3) s
    = Controller.Returned true s'
    /\ Controller.calls s' = [Controller.CallGetOrCreate "db"]
    /\ Controller.last_job_info_ s' = Controller.last_job_info_ s.
Proof. intros s. eexists. split; [vm_compute; reflexivity|]. repeat split. Qed.

(** The argument vector of the second scenario. *)
Example compiler_argv :
  Controller.MakeCompilerParams
    (Controller.CompilerForkParameters_new
       [Controller.mkInput "t1.pb" 100; Controller.mkInput "t2.pb" 200;
        Controller.mkInput "t3.pb" 300]
       "out.pb" (Controller.demo_params false 3))
  = [ "t1.pb"; "t2.pb"; "t3.pb";
      "--timestamp_limit_ns"; "100"; "--timestamp_limit_ns"; "200";
      "--timestamp_limit_ns"; "300"; "--output-proto"; "out.pb" ].
Proof. vm_compute. reflexivity. Qed.

(** The pass of the fourth scenario, which fails, is stamped with the time
    read at its end. *)
Lemma CompileAppsOnDevice_job_info_witness :
  let s := Controller.demo_sys (Controller.demo_world 3 [] [42] [9]) in
  exists s',
    Controller.CompileAppsOnDevice tt (Controller.demo_params false 3) s
    = Controller.Returned false s'
    /\ Controller.last_run_ns_ (Controller.last_job_info_ s') = 1234.
Proof.
  intros s. eexists.
  assert (Hr : Controller.CompileAppsOnDevice tt (Controller.demo_params false 3) s
               = Controller.Returned false _) by (vm_compute; reflexivity).
  split; [exact Hr|].
  exact (proj1 (proj2 (proj2 (proj2
           (@CompileAppsOnDevice_job_info Controller.fake_platform tt
              (Controller.demo_params false 3) s)))) false _ Hr).
Defined.

(** The controller's report with the lock free and with the lock held by
    another thread differ by the one line. *)
Lemma Dump_try_lock_witness :
  let s := Controller.demo_sys (Controller.demo_world 3 [] [] []) in
  exists rest s',
    Controller.Dump tt MutexFree s
    = Controller.Returned ("Background job:" :: rest, MutexFree) s'
    /\ Controller.Dump tt MutexHeldElsewhere s
       = Controller.Returned
           ("Background job:" :: "  (possible deadlock)" :: rest, MutexHeldElsewhere) s'.
Proof.
  intros s.
  destruct (proj2 (@Dump_try_lock PerfettoConsumer.scripted_engine
                     Controller.fake_platform) tt s)
    as (rest & s' & Hfree & Hheld).
  exists rest, s'. split; [exact Hfree|].
  exact (Hheld MutexHeldElsewhere eq_refl).
Defined.

(** * Further properties *)

(** ** The package-version cache, continued *)

Section PackageVersionMapMore.
Import PackageVersionMap.
Context `{PackageManagerRemote}.

(** What the three outcomes of a query leave behind. *)
Lemma GetOrQueryPackageVersion_map (s : t) (name : string) :
  version_map_ (GetOrQueryPackageVersion name s).2
  = match version_map_ s !! name with
    | Some _ => version_map_ s
    | None =>
        match (GetPackageVersion (package_manager_ s) name).1 with
        | Some v => <[name := v]> (version_map_ s)
        | None => version_map_ s
        end
    end.
Proof.
  unfold GetOrQueryPackageVersion.
  destruct (version_map_ s !! name) as [v|]; [reflexivity|]. cbn.
  now destruct (GetPackageVersion (package_manager_ s) name) as [[v|] pm'].
Qed.

(** X1.  A query never removes or changes an entry of the map: the map
    before is contained in the map after, and the only name that can be new
    is the one asked for. *)
Theorem GetOrQueryPackageVersion_keeps_entries (s : t) (name : string) :
  let s' := (GetOrQueryPackageVersion name s).2 in
  version_map_ s ⊆ version_map_ s'
  /\ dom (version_map_ s') ⊆ dom (version_map_ s) ∪ {[ name ]}
  /\ (Size s <= Size s' <= S (Size s))%nat.
Proof.
  cbv zeta. unfold Size. rewrite GetOrQueryPackageVersion_map.
  destruct (version_map_ s !! name) as [v|] eqn:Hlook.
  - split; [reflexivity|]. split; [apply union_subseteq_l|]. lia.
  - destruct (GetPackageVersion (package_manager_ s) name).1 as [v|].
    + split; [now apply insert_subseteq|]. split.
      * rewrite dom_insert_L, (comm_L (∪)). reflexivity.
      * rewrite map_size_insert_None by exact Hlook. lia.
    + split; [reflexivity|]. split; [apply union_subseteq_l|]. lia.
Qed.

(** X2.  A lookup that fails is not remembered.  When the name is not in
    the map and the remote knows nothing of it, the answer is [-1], and asking
    again goes to the remote again; the second answer is whatever the remote
    says then. *)
Theorem failed_lookup_is_not_cached (s : t) (name : string) :
  version_map_ s !! name = None ->
  (GetPackageVersion (package_manager_ s) name).1 = None ->
  let r1 := GetOrQueryPackageVersion name s in
  let r2 := GetOrQueryPackageVersion name r1.2 in
  r1.1 = -1
  /\ remote_calls r2.2 = remote_calls s ++ [QueryOne name; QueryOne name]
  /\ r2.1 = default (-1)
              (GetPackageVersion (GetPackageVersion (package_manager_ s) name).2 name).1.
Proof.
  intros Hlook Hnone r1 r2.
  assert (Hr1 : r1.1 = -1 /\ version_map_ r1.2 = version_map_ s
                /\ package_manager_ r1.2 = (GetPackageVersion (package_manager_ s) name).2
                /\ remote_calls r1.2 = remote_calls s ++ [QueryOne name]).
  { subst r1. unfold GetOrQueryPackageVersion. rewrite Hlook. cbn.
    destruct (GetPackageVersion (package_manager_ s) name) as [v pm']. cbn in *.
    subst v. cbn. repeat split. }
  destruct Hr1 as (Hv & Hmap & Hpm & Hcalls).
  split; [exact Hv|].
  subst r2. generalize dependent (r1.2). intros s1 Hmap Hpm Hcalls.
  unfold GetOrQueryPackageVersion. rewrite Hmap, Hlook. cbn. rewrite Hpm.
  destruct (GetPackageVersion (GetPackageVersion (package_manager_ s) name).2 name)
    as [[v|] pm'']; cbn; rewrite Hcalls, <- app_assoc; now split.
Qed.

(** X3.  [Update] replaces the map by the remote's snapshot with one
    whole-table query: entries that are not in the snapshot are gone,
    including those an earlier lookup wrote back, and every name of the
    snapshot is then answered from the map without asking the remote. *)
Theorem Update_replaces_map (s : t) :
  let snapshot := (GetPackageVersionMap (package_manager_ s)).1 in
  let s' := Update s in
  version_map_ s' = snapshot
  /\ Size s' = size snapshot
  /\ remote_calls s' = remote_calls s ++ [QueryAll]
  /\ forall name,
       match snapshot !! name with
       | Some v => GetOrQueryPackageVersion name s' = (v, s')
       | None => version_map_ s' !! name = None
       end.
Proof.
  cbv zeta. unfold Update, Size.
  destruct (GetPackageVersionMap (package_manager_ s)) as [snapshot pm'] eqn:Hsnap. cbn.
  repeat split. intros name.
  destruct (snapshot !! name) as [v|] eqn:Hlook; [|reflexivity].
  apply GetOrQueryPackageVersion_hit. exact Hlook.
Qed.

End PackageVersionMapMore.

(** A lookup that fails twice against the test remote. *)
Lemma failed_lookup_is_not_cached_witness :
  let s := @PackageVersionMap.mk PackageVersionMap.table_remote
             ({[ "pkg" := 1 ]}, {[ "pkg" := 1 ]}) {[ "pkg" := 1 ]} [] [] in
  (PackageVersionMap.GetOrQueryPackageVersion "gone" s).1 = -1
  /\ PackageVersionMap.remote_calls
       (PackageVersionMap.GetOrQueryPackageVersion "gone"
          (PackageVersionMap.GetOrQueryPackageVersion "gone" s).2).2
     = [PackageVersionMap.QueryOne "gone"; PackageVersionMap.QueryOne "gone"].
Proof.
  intros s.
  destruct (@failed_lookup_is_not_cached PackageVersionMap.table_remote s "gone"
              eq_refl eq_refl) as (H1 & H2 & _).
  split; [exact H1 | exact H2].
Defined.

(** ** The tracing-session tracker, continued *)

Section PerfettoConsumerMore.
Import PerfettoConsumer.
Context `{PerfettoConsumerRaw}.

Ltac impl_fields :=
  unfold set_states, set_raw, set_last_created, set_last_destroyed, LOG in *;
  cbn [states_ last_created_ last_destroyed_ raw_ log fst snd] in *.

(** *** What a successful [Create] did *)

Lemma Create_Ok (config : list Byte.byte) (s s' : Impl) (h : Handle) :
  Create config s = Ok (h, s') ->
  h = last_created_ s + 1
  /\ states_ s !! h = None
  /\ last_created_ s' = h
  /\ last_destroyed_ s' = last_destroyed_ s
  /\ exists d,
       states_ s' = <[h := d]> (states_ s) /\ handle_ d = h /\ kind_ d = kCreated.
Proof.
  unfold Create. impl_fields.
  destruct (raw_Create (raw_ s) config) as [handle raw]. impl_fields.
  case_bool_decide as Hmax; [discriminate|].
  case_bool_decide as Heq; cbn [negb]; [|discriminate].
  case_bool_decide as Hfree; cbn [negb]; [|discriminate].
  intros [= <- <-]. impl_fields. repeat split; try congruence.
  eexists. repeat split.
Qed.

(** *** Operations on a handle that is not tracked *)

Lemma StartTracing_untracked (h : Handle) (s : Impl) :
  states_ s !! h = None ->
  StartTracing h s
  = LOG ERROR (CannotStartTracing h) (LOG DEBUG (MsgStartTracing h) s).
Proof. intros Hn. unfold StartTracing. impl_fields. now rewrite Hn. Qed.

Lemma ReadTrace_untracked (h : Handle) (s : Impl) :
  states_ s !! h = None ->
  ReadTrace h s = ([], LOG ERROR (CannotReadTrace h) (LOG DEBUG (MsgReadTrace h) s)).
Proof. intros Hn. unfold ReadTrace. impl_fields. now rewrite Hn. Qed.

Lemma Destroy_untracked (h : Handle) (s : Impl) :
  states_ s !! h = None ->
  Destroy h s = LOG ERROR (CannotDestroy h) (LOG VERBOSE (MsgDestroy h) s).
Proof. intros Hn. unfold Destroy. impl_fields. now rewrite Hn. Qed.

Lemma Destroy_untracks (h : Handle) (s : Impl) : states_ (Destroy h s) !! h = None.
Proof.
  unfold Destroy. impl_fields.
  destruct (states_ s !! h) as [d|] eqn:Hh; impl_fields; [|exact Hh].
  apply lookup_delete_eq.
Qed.

(** *** The invariant *)

Lemma init_invariant (raw : Raw) : tracker_invariant (init raw).
Proof. split; [cbn; lia|]. intros h d. cbn. now rewrite lookup_empty. Qed.

Lemma Create_invariant (config : list Byte.byte) (s s' : Impl) (h : Handle) :
  tracker_invariant s -> Create config s = Ok (h, s') -> tracker_invariant s'.
Proof.
  intros [Hord Hinv] Hc.
  destruct (Create_Ok config s s' h Hc) as (Hh & Hfree & Hlc & Hld & d & Hst & Hd & Hk).
  split; [lia|]. intros k dk. rewrite Hst, Hlc.
  destruct (decide (h = k)) as [->|Hne].
  - rewrite lookup_insert_eq. intros [= <-]. rewrite Hk. repeat split; [exact Hd|lia|lia].
  - rewrite lookup_insert_ne by exact Hne. intros Hk'.
    destruct (Hinv k dk Hk') as (? & ? & ?). repeat split; [assumption|lia|lia|assumption].
Qed.

Lemma StartTracing_invariant (h : Handle) (s : Impl) :
  tracker_invariant s -> tracker_invariant (StartTracing h s).
Proof.
  intros [Hord Hinv]. unfold StartTracing. impl_fields.
  destruct (states_ s !! h) as [d0|] eqn:Hh; impl_fields; [|now split].
  split; impl_fields; [exact Hord|]. intros k d.
  destruct (decide (h = k)) as [->|Hne].
  - rewrite lookup_insert_eq. intros [= <-]. cbn.
    destruct (Hinv k d0 Hh) as (? & ? & ?). now repeat split.
  - rewrite lookup_insert_ne by exact Hne. apply Hinv.
Qed.

Lemma ReadTrace_invariant (h : Handle) (s : Impl) :
  tracker_invariant s -> tracker_invariant (ReadTrace h s).2.
Proof.
  intros [Hord Hinv]. unfold ReadTrace. impl_fields.
  destruct (states_ s !! h) as [d0|] eqn:Hh; impl_fields; [|now split].
  destruct (raw_ReadTrace (raw_ s) h) as [buffer raw]. impl_fields.
  split; impl_fields; [exact Hord|]. intros k d.
  destruct (decide (h = k)) as [->|Hne].
  - rewrite lookup_insert_eq. intros [= <-]. cbn.
    destruct (Hinv k d0 Hh) as (? & ? & ?). now repeat split.
  - rewrite lookup_insert_ne by exact Hne. apply Hinv.
Qed.

Lemma Destroy_invariant (h : Handle) (s : Impl) :
  tracker_invariant s -> tracker_invariant (Destroy h s).
Proof.
  intros [Hord Hinv]. unfold Destroy. impl_fields.
  destruct (states_ s !! h) as [d0|] eqn:Hh; impl_fields; [|now split].
  destruct (Hinv h d0 Hh) as (_ & Hrange & _).
  split; impl_fields; [lia|]. intros k d.
  destruct (decide (h = k)) as [->|Hne].
  - now rewrite lookup_delete_eq.
  - rewrite lookup_delete_ne, lookup_insert_ne by exact Hne. apply Hinv.
Qed.

Lemma step_invariant (op : Op) (s s' : Impl) :
  tracker_invariant s -> step op s = Ok s' -> tracker_invariant s'.
Proof.
  intros Hinv. destruct op as [config|h|h|h]; cbn.
  - destruct (Create config s) as [[h s1]|why] eqn:Hc; [|discriminate].
    intros [= <-]. exact (Create_invariant config s s1 h Hinv Hc).
  - intros [= <-]. now apply StartTracing_invariant.
  - intros [= <-]. now apply ReadTrace_invariant.
  - intros [= <-]. now apply Destroy_invariant.
Qed.

Lemma run_invariant (ops : list Op) (s s' : Impl) :
  tracker_invariant s -> run ops s = Ok s' -> tracker_invariant s'.
Proof.
  revert s. induction ops as [|op ops IH]; intros s Hinv; cbn.
  - now intros [= <-].
  - destruct (step op s) as [s1|why] eqn:Hstep; [|discriminate].
    apply IH. exact (step_invariant op s s1 Hinv Hstep).
Qed.

Lemma reachable_invariant (s : Impl) : reachable s -> tracker_invariant s.
Proof.
  intros (raw & ops & Hrun).
  exact (run_invariant ops (init raw) s (init_invariant raw) Hrun).
Qed.

(** X4.  In every state the tracker can reach, [last_destroyed] is between
    0 and [last_created], and every entry of the map is stored under its own
    handle, which is between 1 and [last_created], with kind [kCreated],
    [kStartedTracing] or [kReadTracing]: a destroyed, timed-out or uncreated
    description is never in the map. *)
Theorem reachable_tracker_shape (s : Impl) :
  reachable s ->
  0 <= last_destroyed_ s <= last_created_ s
  /\ forall h d,
       states_ s !! h = Some d ->
       handle_ d = h
       /\ 1 <= h <= last_created_ s
       /\ kind_ d ∈ [kCreated; kStartedTracing; kReadTracing].
Proof.
  intros Hreach. destruct (reachable_invariant s Hreach) as [Hord Hinv].
  split; [exact Hord|]. intros h d Hd.
  destruct (Hinv h d Hd) as (Hh & Hrange & Hlive).
  split; [exact Hh|]. split; [exact Hrange|].
  destruct (kind_ d); try discriminate; rewrite !elem_of_cons; auto.
Qed.

(** X5.  After [Destroy h], whether or not [h] was tracked, the handle is
    untracked and further calls with it never reach the engine: a second
    [Destroy], a [StartTracing] and a [ReadTrace] leave the engine, the map
    and both counters as they are, and [ReadTrace] returns an empty buffer. *)
Theorem use_after_Destroy_is_ignored (h : Handle) (s : Impl) :
  let s1 := Destroy h s in
  states_ s1 !! h = None
  /\ same_but_log (Destroy h s1) s1
  /\ same_but_log (StartTracing h s1) s1
  /\ same_but_log (ReadTrace h s1).2 s1
  /\ (ReadTrace h s1).1 = [].
Proof.
  intros s1. pose proof (Destroy_untracks h s) as Hn. fold s1 in Hn.
  split; [exact Hn|].
  rewrite (Destroy_untracked h s1 Hn), (StartTracing_untracked h s1 Hn),
    (ReadTrace_untracked h s1 Hn).
  now repeat split.
Qed.

(** X6.  [Create] followed by [Destroy] of the handle it returned puts the
    map back as it was; both counters then hold that handle. *)
Theorem Create_then_Destroy (config : list Byte.byte) (s s' : Impl) (h : Handle) :
  Create config s = Ok (h, s') ->
  states_ (Destroy h s') = states_ s
  /\ last_created_ (Destroy h s') = h
  /\ last_destroyed_ (Destroy h s') = h.
Proof.
  intros Hc.
  destruct (Create_Ok config s s' h Hc) as (Hh & Hfree & Hlc & Hld & d & Hst & Hd & Hk).
  unfold Destroy. impl_fields. rewrite Hst, lookup_insert_eq. impl_fields.
  rewrite insert_insert_eq, delete_insert_id by exact Hfree. now repeat split.
Qed.

(** X7.  [StartTracing] and [ReadTrace] never add or remove a tracked
    handle, never touch the description of another handle, and never change a
    counter. *)
Theorem StartTracing_ReadTrace_keep_tracking (h : Handle) (s : Impl) :
  let keeps (s' : Impl) :=
    dom (states_ s') = dom (states_ s)
    /\ delete h (states_ s') = delete h (states_ s)
    /\ last_created_ s' = last_created_ s
    /\ last_destroyed_ s' = last_destroyed_ s in
  keeps (StartTracing h s) /\ keeps (ReadTrace h s).2.
Proof.
  cbv zeta. split.
  - unfold StartTracing. impl_fields.
    destruct (states_ s !! h) as [d|] eqn:Hh; impl_fields; [|now repeat split].
    split; [|split; [|now split]].
    + apply dom_insert_lookup_L. now rewrite Hh.
    + apply delete_insert_eq.
  - unfold ReadTrace. impl_fields.
    destruct (states_ s !! h) as [d|] eqn:Hh; impl_fields; [|now repeat split].
    destruct (raw_ReadTrace (raw_ s) h) as [buffer raw]. impl_fields.
    split; [|split; [|now split]].
    + apply dom_insert_lookup_L. now rewrite Hh.
    + apply delete_insert_eq.
Qed.

(** X8.  The time recorded by [StartTracing] survives [ReadTrace]: after
    both, the description of a tracked handle has kind [kReadTracing], keeps
    its handle, and still carries the start time, which is the time of its
    last transition after [StartTracing]. *)
Theorem start_time_survives_ReadTrace (h : Handle) (s : Impl) (d : HandleDescription) :
  states_ s !! h = Some d ->
  let s1 := StartTracing h s in
  let s2 := (ReadTrace h s1).2 in
  exists d1 d2,
    states_ s1 !! h = Some d1
    /\ states_ s2 !! h = Some d2
    /\ kind_ d1 = kStartedTracing
    /\ kind_ d2 = kReadTracing
    /\ handle_ d2 = handle_ d
    /\ started_tracing_ns_ d1 = Some (last_transition_ns_ d1)
    /\ started_tracing_ns_ d2 = started_tracing_ns_ d1.
Proof.
  intros Hd s1 s2.
  assert (H1 : exists d1, states_ s1 !! h = Some d1 /\ kind_ d1 = kStartedTracing
                          /\ handle_ d1 = handle_ d
                          /\ started_tracing_ns_ d1 = Some (last_transition_ns_ d1)).
  { subst s1. unfold StartTracing. impl_fields. rewrite Hd. impl_fields.
    eexists. split; [apply lookup_insert_eq|]. now repeat split. }
  destruct H1 as (d1 & Hd1 & Hk1 & Hh1 & Ht1).
  exists d1. subst s2. unfold ReadTrace. impl_fields. rewrite Hd1.
  destruct (raw_ReadTrace (raw_ s1) h) as [buffer raw]. impl_fields.
  eexists. split; [reflexivity|]. split; [apply lookup_insert_eq|].
  cbn. rewrite Hk1, Hh1, Ht1. now repeat split.
Qed.

(** X9.  On every reachable tracker, a handle above [last_created] is not
    tracked and is inferred Uncreated; a handle at or below 0, other than
    [kInvalidHandle], is not tracked either and is inferred Destroyed,
    although no such handle was ever issued. *)
Theorem inference_outside_issued_range (s : Impl) (h : Handle) :
  reachable s ->
  (h > last_created_ s -> states_ s !! h = None /\ infer s h = InferUncreated)
  /\ (h <= 0 -> h <> kInvalidHandle ->
      states_ s !! h = None /\ infer s h = InferDestroyed).
Proof.
  intros Hreach. destruct (reachable_invariant s Hreach) as [Hord Hinv].
  assert (Hout : h > last_created_ s \/ h <= 0 -> states_ s !! h = None).
  { intros Hh. destruct (states_ s !! h) as [d|] eqn:Hd; [|reflexivity].
    destruct (Hinv h d Hd) as (_ & ? & _). lia. }
  split.
  - intros Hh. assert (Hn := Hout (or_introl Hh)). split; [exact Hn|].
    rewrite (infer_untracked s h Hn).
    destruct (bool_decide (h = kInvalidHandle)); [reflexivity|].
    now rewrite bool_decide_eq_false_2 by lia.
  - intros Hh Hk. assert (Hn := Hout (or_intror Hh)). split; [exact Hn|].
    rewrite (infer_untracked s h Hn).
    rewrite bool_decide_eq_false_2 by exact Hk.
    now rewrite bool_decide_eq_true_2 by lia.
Qed.

(** *** Counting *)

Lemma StartTracing_ReadTrace_shape (h : Handle) (s : Impl) :
  (size (states_ (StartTracing h s)) = size (states_ s)
   /\ last_created_ (StartTracing h s) = last_created_ s)
  /\ (size (states_ (ReadTrace h s).2) = size (states_ s)
      /\ last_created_ (ReadTrace h s).2 = last_created_ s).
Proof.
  split.
  - unfold StartTracing. impl_fields.
    destruct (states_ s !! h) as [d|] eqn:Hh; impl_fields; [|now split].
    split; [|reflexivity]. now rewrite map_size_insert, Hh.
  - unfold ReadTrace. impl_fields.
    destruct (states_ s !! h) as [d|] eqn:Hh; impl_fields; [|now split].
    destruct (raw_ReadTrace (raw_ s) h) as [buffer raw]. impl_fields.
    split; [|reflexivity]. now rewrite map_size_insert, Hh.
Qed.

Lemma run_counts (ops : list Op) :
  forall s s' : Impl,
    run ops s = Ok s' ->
    last_created_ s' = last_created_ s + Z.of_nat (creates ops)
    /\ (size (states_ s') <= size (states_ s) + creates ops)%nat.
Proof.
  induction ops as [|op ops IH]; intros s s'; cbn [run].
  - intros [= <-]. unfold creates. cbn. lia.
  - destruct (step op s) as [s1|why] eqn:Hstep; [|discriminate].
    intros Hrun. destruct (IH s1 s' Hrun) as [Hlc Hsize].
    assert (Hone : last_created_ s1
                   = last_created_ s + (if is_create op then 1 else 0)
                   /\ (size (states_ s1)
                       <= size (states_ s) + (if is_create op then 1 else 0))%nat).
    { destruct op as [config|h|h|h]; cbn in Hstep |- *.
      - destruct (Create config s) as [[h s2]|why] eqn:Hc; [|discriminate].
        injection Hstep as <-.
        destruct (Create_Ok config s s2 h Hc) as (Hh & Hfree & Hlc2 & _ & d & Hst & _).
        rewrite Hst, map_size_insert_None by exact Hfree. lia.
      - injection Hstep as <-.
        destruct (StartTracing_ReadTrace_shape h s) as (Hs1 & _).
        rewrite (proj1 Hs1), (proj2 Hs1). lia.
      - injection Hstep as <-.
        destruct (StartTracing_ReadTrace_shape h s) as (_ & Hs2).
        rewrite (proj1 Hs2), (proj2 Hs2). lia.
      - injection Hstep as <-. unfold Destroy. impl_fields.
        destruct (states_ s !! h) as [d|] eqn:Hh; impl_fields; [|lia].
        rewrite map_size_delete, lookup_insert_eq, map_size_insert, Hh. cbn. lia. }
    destruct Hone as [Hlc1 Hsize1].
    unfold creates in *. cbn [List.filter].
    destruct (is_create op); cbn [length]; lia.
Qed.

(** X10.  On a tracker that a sequence of operations has reached from a
    fresh one, [last_created] is the number of [Create] operations in the
    sequence, and the number of tracked handles is at most that. *)
Theorem last_created_counts_creates (raw : Raw) (ops : list Op) (s : Impl) :
  run ops (init raw) = Ok s ->
  last_created_ s = Z.of_nat (creates ops)
  /\ (size (states_ s) <= creates ops)%nat.
Proof.
  intros Hrun. destruct (run_counts ops (init raw) s Hrun) as [Hlc Hsize].
  cbn in Hlc, Hsize. rewrite map_size_empty in Hsize. split; lia.
Qed.

(** X11.  The tracker's report lists every in-flight session of a reachable
    tracker: the five lines of its description are in the report, and the
    first of them names the handle it is tracked under. *)
Theorem Dump_lists_in_flight_handles (mutex : Mutex) (s : Impl) (h : Handle)
    (d : HandleDescription) :
  reachable s ->
  states_ s !! h = Some d ->
  head (DumpEntry d) = Some ("    Handle " +:+ pretty h)
  /\ forall line, line ∈ DumpEntry d -> line ∈ (Dump mutex s).1.
Proof.
  intros Hreach Hd. destruct (reachable_invariant s Hreach) as [_ Hinv].
  destruct (Hinv h d Hd) as (Hh & _ & _).
  split; [cbn; now rewrite Hh|].
  intros line Hline. unfold Dump. destruct (try_lock mutex) as [locked mutex'].
  cbn [fst]. rewrite !elem_of_app. right. left.
  apply list_elem_of_In, in_flat_map. exists (h, d). split.
  - apply list_elem_of_In. unfold entries. rewrite merge_sort_Permutation.
    now apply elem_of_map_to_list.
  - now apply list_elem_of_In.
Qed.

End PerfettoConsumerMore.

(** Handle 2 in flight after create 1, 2; start 2; destroy 1. *)
Lemma reachable_tracker_shape_witness :
  let s := PerfettoConsumer.after
             [PerfettoConsumer.OpCreate []; PerfettoConsumer.OpCreate [];
              PerfettoConsumer.OpStartTracing 2; PerfettoConsumer.OpDestroy 1] [1; 2] in
  PerfettoConsumer.reachable s
  /\ 0 <= PerfettoConsumer.last_destroyed_ s <= PerfettoConsumer.last_created_ s
  /\ PerfettoConsumer.states_ s !! 2
     = Some (PerfettoConsumer.mkDesc 2 PerfettoConsumer.kStartedTracing 0 (Some 0) 0).
Proof.
  intros s.
  assert (Hreach : PerfettoConsumer.reachable s).
  { exists [1; 2],
      [PerfettoConsumer.OpCreate []; PerfettoConsumer.OpCreate [];
       PerfettoConsumer.OpStartTracing 2; PerfettoConsumer.OpDestroy 1].
    vm_compute. reflexivity. }
  split; [exact Hreach|].
  split; [exact (proj1 (reachable_tracker_shape s Hreach))|]. reflexivity.
Defined.

(** Create on a fresh tracker, then destroy the handle. *)
Lemma Create_then_Destroy_witness :
  exists s' : @PerfettoConsumer.Impl PerfettoConsumer.scripted_engine,
    PerfettoConsumer.Create [] (PerfettoConsumer.init [1]) = PerfettoConsumer.Ok (1, s')
    /\ PerfettoConsumer.states_ (PerfettoConsumer.Destroy 1 s') = ∅
    /\ PerfettoConsumer.last_destroyed_ (PerfettoConsumer.Destroy 1 s') = 1.
Proof.
  eexists. assert (Hc : PerfettoConsumer.Create [] (PerfettoConsumer.init [1])
                        = PerfettoConsumer.Ok (1, _)) by (vm_compute; reflexivity).
  split; [exact Hc|].
  destruct (Create_then_Destroy [] _ _ 1 Hc) as (Hst & _ & Hld).
  split; [exact Hst | exact Hld].
Defined.

(** Start and read the one session of a tracker. *)
Lemma start_time_survives_ReadTrace_witness :
  let s := PerfettoConsumer.after [PerfettoConsumer.OpCreate []] [1] in
  exists d2,
    PerfettoConsumer.states_
      (PerfettoConsumer.ReadTrace 1 (PerfettoConsumer.StartTracing 1 s)).2 !! 1 = Some d2
    /\ PerfettoConsumer.kind_ d2 = PerfettoConsumer.kReadTracing
    /\ is_Some (PerfettoConsumer.started_tracing_ns_ d2).
Proof.
  intros s.
  destruct (start_time_survives_ReadTrace 1 s
              (PerfettoConsumer.mkDesc 1 PerfettoConsumer.kCreated 0 None 0) eq_refl)
    as (d1 & d2 & _ & Hd2 & _ & Hk2 & _ & Ht1 & Ht2).
  exists d2. split; [exact Hd2|]. split; [exact Hk2|].
  rewrite Ht2, Ht1. now eexists.
Defined.

(** Handles 9 and 0 on a tracker that has issued handles 1 and 2. *)
Lemma inference_outside_issued_range_witness :
  let s := PerfettoConsumer.after
             [PerfettoConsumer.OpCreate []; PerfettoConsumer.OpCreate []] [1; 2] in
  PerfettoConsumer.reachable s
  /\ PerfettoConsumer.infer s 9 = PerfettoConsumer.InferUncreated
  /\ PerfettoConsumer.infer s 0 = PerfettoConsumer.InferDestroyed.
Proof.
  intros s.
  assert (Hreach : PerfettoConsumer.reachable s).
  { exists [1; 2], [PerfettoConsumer.OpCreate []; PerfettoConsumer.OpCreate []].
    vm_compute. reflexivity. }
  split; [exact Hreach|]. split.
  - apply (proj1 (inference_outside_issued_range s 9 Hreach)). vm_compute. reflexivity.
  - apply (proj2 (inference_outside_issued_range s 0 Hreach)).
    + vm_compute. discriminate.
    + vm_compute. discriminate.
Defined.

(** Three creates among five operations. *)
Lemma last_created_counts_creates_witness :
  exists s : @PerfettoConsumer.Impl PerfettoConsumer.scripted_engine,
    PerfettoConsumer.run
      [PerfettoConsumer.OpCreate []; PerfettoConsumer.OpCreate [];
       PerfettoConsumer.OpDestroy 1; PerfettoConsumer.OpCreate [];
       PerfettoConsumer.OpReadTrace 2] (PerfettoConsumer.init [1; 2; 3])
    = PerfettoConsumer.Ok s
    /\ PerfettoConsumer.last_created_ s = 3
    /\ (size (PerfettoConsumer.states_ s) <= 3)%nat.
Proof.
  eexists.
  assert (Hrun : PerfettoConsumer.run
            [PerfettoConsumer.OpCreate []; PerfettoConsumer.OpCreate [];
             PerfettoConsumer.OpDestroy 1; PerfettoConsumer.OpCreate [];
             PerfettoConsumer.OpReadTrace 2] (PerfettoConsumer.init [1; 2; 3])
          = PerfettoConsumer.Ok _) by (vm_compute; reflexivity).
  split; [exact Hrun|].
  exact (last_created_counts_creates _ _ _ Hrun).
Defined.

(** The report of a tracker with handle 1 in flight names it. *)
Lemma Dump_lists_in_flight_handles_witness :
  let s := PerfettoConsumer.after [PerfettoConsumer.OpCreate []] [1] in
  PerfettoConsumer.reachable s
  /\ "    Handle 1" ∈ (PerfettoConsumer.Dump MutexFree s).1.
Proof.
  intros s.
  assert (Hreach : PerfettoConsumer.reachable s).
  { exists [1], [PerfettoConsumer.OpCreate []]. vm_compute. reflexivity. }
  split; [exact Hreach|].
  apply (proj2 (Dump_lists_in_flight_handles MutexFree s 1
                  (PerfettoConsumer.mkDesc 1 PerfettoConsumer.kCreated 0 None 0)
                  Hreach eq_refl)).
  apply list_elem_of_here.
Defined.

(** ** The compilation controller, continued *)

Section ControllerMore.
Import Controller.
Context `{Platform}.

Ltac sys_fields :=
  cbn [world last_job_info_ log calls logged called with_job final
       last_run_ns_ activities_last_compiled_ fst snd] in *.

Ltac step :=
  first [ rewrite bind_bind | rewrite bind_LOG | rewrite bind_query | rewrite bind_call
        | rewrite bind_modify_job | rewrite bind_get_job | rewrite bind_ret
        | rewrite bind_GetPerfettoTraceInfo | rewrite run_ret ].

(** *** [GetPerfettoTraceInfo] *)

Lemma compilation_inputs_app (db : DbHandle) (w : World)
    (h1 h2 : list AppLaunchHistoryModel.t) :
  compilation_inputs db w (h1 ++ h2)
  = compilation_inputs db w h1 ++ compilation_inputs db w h2.
Proof. unfold compilation_inputs. apply omap_app. Qed.

Lemma trace_errors_app (db : DbHandle) (w : World)
    (h1 h2 : list AppLaunchHistoryModel.t) :
  trace_errors db w (h1 ++ h2) = trace_errors db w h1 ++ trace_errors db w h2.
Proof. unfold trace_errors. apply flat_map_app. Qed.

Lemma trace_errors_are_errors (db : DbHandle) (w : World)
    (histories : list AppLaunchHistoryModel.t) :
  Forall (fun entry => entry.1 = ERROR) (trace_errors db w histories).
Proof.
  induction histories as [|history histories IH]; [constructor|].
  change (history :: histories) with ([history] ++ histories).
  rewrite trace_errors_app. apply Forall_app. split; [|exact IH].
  unfold trace_errors. cbn. rewrite app_nil_r.
  destruct (RawTraceModel_SelectByHistoryId db _ w); [|now repeat constructor].
  destruct (AppLaunchHistoryModel.report_fully_drawn_ns history),
           (AppLaunchHistoryModel.total_time_ns history); now repeat constructor.
Qed.

(** X12.  Collecting the traces of a list of histories in two parts, one
    after the other, gives the same inputs, in the same order, and the same
    log as collecting them in one go. *)
Theorem GetPerfettoTraceInfo_app (db : DbHandle)
    (h1 h2 : list AppLaunchHistoryModel.t) (s : Sys) :
  GetPerfettoTraceInfo db (h1 ++ h2) s
  = bind (GetPerfettoTraceInfo db h1)
      (fun l1 => bind (GetPerfettoTraceInfo db h2) (fun l2 => ret (l1 ++ l2))) s.
Proof.
  do 2 step. step. unfold GetPerfettoTraceInfo.
  rewrite GetPerfettoTraceInfo_loop_spec. sys_fields.
  now rewrite compilation_inputs_app, trace_errors_app, logged_logged.
Qed.

(** X13.  [GetPerfettoTraceInfo] never returns more inputs than it was given
    histories, and returns as many exactly when every history has a raw-trace
    row; the state it leaves differs from the one it found only in the log. *)
Theorem GetPerfettoTraceInfo_length (db : DbHandle)
    (histories : list AppLaunchHistoryModel.t) (s : Sys) :
  exists inputs entries,
    GetPerfettoTraceInfo db histories s = Returned inputs (logged s entries)
    /\ (length inputs <= length histories)%nat
    /\ (length inputs = length histories
        <-> Forall (fun history =>
                      is_Some (RawTraceModel_SelectByHistoryId db
                                 (AppLaunchHistoryModel.id history) (world s)))
                   histories).
Proof.
  eexists _, _. split.
  { unfold GetPerfettoTraceInfo. now rewrite GetPerfettoTraceInfo_loop_spec. }
  cbn [app]. unfold compilation_inputs.
  induction histories as [|history histories [IHle IHeq]];
    cbn [omap list_omap length] in *.
  - split; [lia|]. split; [intros _; constructor | intros _; reflexivity].
  - assert (Hci : compilation_input db (world s) history
                  = match RawTraceModel_SelectByHistoryId db
                            (AppLaunchHistoryModel.id history) (world s) with
                    | Some raw_trace =>
                        Some (mkInput (RawTraceModel.file_path raw_trace)
                                (effective_timestamp_limit history))
                    | None => None
                    end) by reflexivity.
    destruct (RawTraceModel_SelectByHistoryId db (AppLaunchHistoryModel.id history)
                (world s)) as [raw_trace|] eqn:Hraw; rewrite Hci; cbn [length].
    + split; [lia|]. split.
      * intros Hlen. constructor; [cbn beta; rewrite Hraw; now eexists|].
        apply IHeq. lia.
      * intros Hall. apply Forall_cons in Hall. destruct Hall as [_ Hall].
        f_equal. now apply IHeq.
    + split; [lia|]. split; [lia|].
      intros Hall. apply Forall_cons in Hall. destruct Hall as [[x Hx] _].
      rewrite Hraw in Hx. discriminate.
Qed.

(** X14.  [GetPerfettoTraceInfo] logs nothing exactly when every history has
    a raw-trace row and at least one of its two timing fields. *)
Theorem GetPerfettoTraceInfo_silent (db : DbHandle)
    (histories : list AppLaunchHistoryModel.t) (s : Sys) :
  log (final (GetPerfettoTraceInfo db histories s)) = log s
  <-> Forall (fun history =>
                is_Some (RawTraceModel_SelectByHistoryId db
                           (AppLaunchHistoryModel.id history) (world s))
                /\ (is_Some (AppLaunchHistoryModel.report_fully_drawn_ns history)
                    \/ is_Some (AppLaunchHistoryModel.total_time_ns history)))
             histories.
Proof.
  unfold GetPerfettoTraceInfo. rewrite GetPerfettoTraceInfo_loop_spec. sys_fields.
  rewrite <- (app_nil_r (log s)) at 2.
  split.
  - intros Heq. apply app_inv_head in Heq. revert Heq.
    induction histories as [|history histories IH]; [constructor|].
    change (history :: histories) with ([history] ++ histories).
    rewrite trace_errors_app. intros Heq. apply app_eq_nil in Heq.
    destruct Heq as [Hone Hrest]. apply Forall_app. split; [|now apply IH].
    constructor; [|constructor]. unfold trace_errors in Hone. cbn in Hone.
    destruct (RawTraceModel_SelectByHistoryId db _ (world s)); [|discriminate].
    split; [now eexists|].
    destruct (AppLaunchHistoryModel.report_fully_drawn_ns history);
      [left; now eexists|].
    destruct (AppLaunchHistoryModel.total_time_ns history); [right; now eexists|].
    discriminate.
  - intros Hall. f_equal. induction Hall as [|history histories [Hraw Htime] _ IH];
      [reflexivity|].
    change (history :: histories) with ([history] ++ histories).
    rewrite trace_errors_app, IH, app_nil_r. unfold trace_errors. cbn.
    destruct Hraw as [raw_trace ->].
    destruct Htime as [[v ->] | [v ->]]; [reflexivity|].
    now destruct (AppLaunchHistoryModel.report_fully_drawn_ns history).
Qed.

(** *** [StartViaFork] *)

(** X15.  In the forked child ([Fork] gave neither [-1] nor a positive pid)
    [StartViaFork] calls [Execve] on the compiler binary with the composed
    argument vector and never waits.  If [Execve] replaces the image nothing
    more runs; if [Execve] comes back, [StartViaFork] returns [false] to its
    caller and the child carries on from there. *)
Theorem StartViaFork_in_child (params : CompilerForkParameters) (s : Sys) :
  let forked := Fork (world s) in
  let argv_vec := MakeCompilerParams params in
  let exec := Execve kCommandFileName argv_vec forked.2 in
  forked.1 <> -1 ->
  ~ forked.1 > 0 ->
  exists s',
    StartViaFork params s
    = (if exec.1 is Some _ then Returned false s' else Stopped ImageReplaced s')
    /\ calls s' = CallExecve kCommandFileName argv_vec :: CallFork :: calls s
    /\ world s' = exec.2
    /\ last_job_info_ s' = last_job_info_ s.
Proof.
  intros forked argv_vec exec Hfail Hparent.
  rewrite (StartViaFork_child params s Hfail Hparent). fold forked argv_vec exec.
  eexists. split; [destruct exec.1; reflexivity|]. now sys_fields.
Qed.

(** The calls of [StartViaFork], by the way it ends. *)
Lemma StartViaFork_protocol (params : CompilerForkParameters) (s : Sys) :
  match StartViaFork params s with
  | Returned true s' =>
      (exists child, calls s' = CallWaitpid child :: CallFork :: calls s)
      /\ last_job_info_ s' = last_job_info_ s
  | Returned false s' =>
      ((exists child, calls s' = CallWaitpid child :: CallFork :: calls s)
       \/ (exists argv, calls s' = CallExecve kCommandFileName argv :: CallFork :: calls s))
      /\ last_job_info_ s' = last_job_info_ s
  | Stopped FatalLog s' =>
      calls s' = CallFork :: calls s /\ last_job_info_ s' = last_job_info_ s
  | Stopped ImageReplaced s' =>
      (exists argv, calls s' = CallExecve kCommandFileName argv :: CallFork :: calls s)
      /\ last_job_info_ s' = last_job_info_ s
  end.
Proof.
  destruct (decide ((Fork (world s)).1 = -1)) as [Hfail|Hfail].
  { rewrite (StartViaFork_failed_fork params s Hfail). now sys_fields. }
  destruct (decide ((Fork (world s)).1 > 0)) as [Hparent|Hparent].
  { rewrite (StartViaFork_parent params s Hparent).
    destruct (WIFEXITED _); sys_fields; (split; [|reflexivity]);
      [|left]; now eexists. }
  rewrite (StartViaFork_child params s Hfail Hparent).
  destruct (Execve _ _ _).1; sys_fields; (split; [|reflexivity]);
    [right|]; now eexists.
Qed.

(** *** [CompileActivity], case by case *)

Section OneActivity.
Variables (db : DbHandle) (package_id : Z) (package_name activity_name : string)
  (version : Z) (params : ControllerParameters).

Let file_path := CompiledTraceFileModel_FilePath package_name activity_name version.

(** An attempted compile up to and including its [MkdirWithParents]: what is
    left to run is the fork and the insertion. *)
Lemma CompileActivity_to_mkdir (s : Sys) (activity : ActivityModel.t) :
  attempted db package_id package_name activity_name version params (world s) = true ->
  ActivityModel_SelectByNameAndPackageId db activity_name package_id (world s)
  = Some activity ->
  let made := CompiledTraceFileModel_MkdirWithParents file_path (world s) in
  exists s1 : Sys,
    world s1 = made.2
    /\ calls s1 = CallMkdirWithParents file_path :: calls s
    /\ last_job_info_ s1
       = mkJob (last_run_ns_ (last_job_info_ s))
               (size_incr (activities_last_compiled_ (last_job_info_ s)))
    /\ CompileActivity db package_id package_name activity_name version params s
       = (if negb made.1 then
            bind (LOG ERROR (FailedToMkdirs file_path)) (fun _ => ret false)
          else
            bind (StartViaFork
                    (CompilerForkParameters_new (inputs_of_activity db (world s) activity)
                       file_path params))
              (fun started : bool =>
                 if negb started then
                   bind (LOG ERROR (CompilationFailed package_id activity_name))
                     (fun _ => ret false)
                 else
                   bind (call (CallInsert (ActivityModel.id activity) file_path)
                           (PrefetchFileModel_Insert db (ActivityModel.id activity)
                              file_path))
                     (fun compiled_trace =>
                        match compiled_trace with
                        | None =>
                            bind (LOG ERROR
                                    (CannotInsertCompiledTrace
                                       (ActivityModel.id activity) file_path))
                              (fun _ => ret false)
                        | Some _ => ret true
                        end))) s1.
Proof.
  intros Hhit Hact made.
  unfold attempted in Hhit. fold file_path in Hhit. rewrite Hact in Hhit.
  apply andb_prop in Hhit. destruct Hhit as [Hshort Hfew].
  apply negb_true_iff in Hshort. apply negb_true_iff in Hfew.
  unfold inputs_of_activity in *.
  unfold CompileActivity. step. fold file_path. rewrite Hshort.
  step. rewrite Hact. do 2 step. sys_fields. rewrite Hfew. do 2 step.
  rewrite bind_inode_textcache. step. sys_fields. fold made.
  eexists. split; [|split; [|split; [|reflexivity]]]; now sys_fields.
Qed.

(** X16.  An attempted compile whose [MkdirWithParents] fails returns
    failure with that error logged.  The attempt has been counted, and no
    child is forked and no row inserted: [MkdirWithParents] is its only
    call. *)
Theorem CompileActivity_mkdir_failure (s : Sys) (activity : ActivityModel.t) :
  attempted db package_id package_name activity_name version params (world s) = true ->
  ActivityModel_SelectByNameAndPackageId db activity_name package_id (world s)
  = Some activity ->
  (CompiledTraceFileModel_MkdirWithParents file_path (world s)).1 = false ->
  exists s',
    CompileActivity db package_id package_name activity_name version params s
    = Returned false s'
    /\ calls s' = CallMkdirWithParents file_path :: calls s
    /\ last (log s') = Some (ERROR, FailedToMkdirs file_path)
    /\ activities_last_compiled_ (last_job_info_ s')
       = size_incr (activities_last_compiled_ (last_job_info_ s)).
Proof.
  intros Hhit Hact Hmade.
  destruct (CompileActivity_to_mkdir s activity Hhit Hact) as (s1 & Hw & Hc & Hj & ->).
  rewrite Hmade. cbn [negb]. do 2 step. eexists. split; [reflexivity|]. sys_fields.
  rewrite Hc, Hj, last_snoc. now repeat split.
Qed.

(** X17.  An attempted compile whose [Fork] fails ends the process on a
    fatal log: it does not return.  The directory has been made and the
    attempt counted; nothing is waited for and nothing is inserted. *)
Theorem CompileActivity_fork_failure (s : Sys) (activity : ActivityModel.t) :
  let made := CompiledTraceFileModel_MkdirWithParents file_path (world s) in
  attempted db package_id package_name activity_name version params (world s) = true ->
  ActivityModel_SelectByNameAndPackageId db activity_name package_id (world s)
  = Some activity ->
  made.1 = true ->
  (Fork made.2).1 = -1 ->
  exists s',
    CompileActivity db package_id package_name activity_name version params s
    = Stopped FatalLog s'
    /\ calls s' = CallFork :: CallMkdirWithParents file_path :: calls s
    /\ last (log s') = Some (FATAL, FailedToFork)
    /\ activities_last_compiled_ (last_job_info_ s')
       = size_incr (activities_last_compiled_ (last_job_info_ s)).
Proof.
  intros made Hhit Hact Hmade Hfork.
  destruct (CompileActivity_to_mkdir s activity Hhit Hact) as (s1 & Hw & Hc & Hj & ->).
  fold made in Hw |- *. rewrite Hmade. cbn [negb].
  rewrite <- Hw in Hfork.
  rewrite (bind_Stopped _ _ _ _ _ (StartViaFork_failed_fork _ s1 Hfork)).
  eexists. split; [reflexivity|]. sys_fields.
  rewrite Hc, Hj, last_snoc. now repeat split.
Qed.

(** X18.  The calls of one per-activity compile, newest first, by the way it
    ends.  It returns success only when it made no call at all (the output
    file was there) or when, after [MkdirWithParents], [Fork] and [waitpid],
    it inserted the row.  It never inserts without having waited for a child,
    never forks without having made the directory, and makes each of its
    calls at most once. *)
Theorem CompileActivity_protocol (s : Sys) :
  let mkdir := CallMkdirWithParents file_path in
  match CompileActivity db package_id package_name activity_name version params s with
  | Returned true s' =>
      calls s' = calls s
      \/ exists activity_id child,
           calls s' = CallInsert activity_id file_path :: CallWaitpid child
                        :: CallFork :: mkdir :: calls s
  | Returned false s' =>
      calls s' = calls s
      \/ calls s' = mkdir :: calls s
      \/ (exists child, calls s' = CallWaitpid child :: CallFork :: mkdir :: calls s)
      \/ (exists argv,
            calls s' = CallExecve kCommandFileName argv :: CallFork :: mkdir :: calls s)
      \/ (exists activity_id child,
            calls s' = CallInsert activity_id file_path :: CallWaitpid child
                         :: CallFork :: mkdir :: calls s)
  | Stopped FatalLog s' => calls s' = CallFork :: mkdir :: calls s
  | Stopped ImageReplaced s' =>
      exists argv,
        calls s' = CallExecve kCommandFileName argv :: CallFork :: mkdir :: calls s
  end.
Proof.
  intros mkdir.
  destruct (attempted db package_id package_name activity_name version params (world s))
    eqn:Hhit.
  - assert (Hact : exists activity,
              ActivityModel_SelectByNameAndPackageId db activity_name package_id (world s)
              = Some activity).
    { unfold attempted in Hhit. apply andb_prop in Hhit. destruct Hhit as [_ Hhit].
      destruct (ActivityModel_SelectByNameAndPackageId db activity_name package_id
                  (world s)); [now eexists|discriminate]. }
    destruct Hact as [activity Hact].
    destruct (CompileActivity_to_mkdir s activity Hhit Hact) as (s1 & Hw & Hc & Hj & ->).
    destruct (CompiledTraceFileModel_MkdirWithParents file_path (world s)).1; cbn [negb].
    + pose proof (StartViaFork_protocol
                    (CompilerForkParameters_new (inputs_of_activity db (world s) activity)
                       file_path params) s1) as Hfork.
      unfold bind at 1.
      destruct (StartViaFork _ s1) as [[|] s2|[|] s2]; cbn [negb].
      * destruct Hfork as [[child Hc2] _]. step. sys_fields.
        destruct (PrefetchFileModel_Insert db (ActivityModel.id activity) file_path
                    (world s2)).1; repeat step; sys_fields; rewrite Hc2, Hc.
        -- right. now eexists _, _.
        -- do 4 right. now eexists _, _.
      * do 2 step. sys_fields. destruct Hfork as [[[child Hc2] | [argv Hc2]] _];
          rewrite Hc2, Hc.
        -- do 2 right. left. now eexists.
        -- do 3 right. left. now eexists.
      * destruct Hfork as [Hc2 _]. now rewrite Hc2, Hc.
      * destruct Hfork as [[argv Hc2] _]. rewrite Hc2, Hc. now eexists.
    + do 2 step. sys_fields. right. left. exact Hc.
  - unfold attempted in Hhit. fold file_path in Hhit.
    destruct (negb (recompile params) && filesystem_exists file_path (world s))
      eqn:Hshort; cbn [negb andb] in Hhit.
    { rewrite CompileActivity_file_exists by exact Hshort. now left. }
    destruct (ActivityModel_SelectByNameAndPackageId db activity_name package_id
                (world s)) as [activity|] eqn:Hact.
    2:{ rewrite CompileActivity_no_activity by assumption. now left. }
    apply negb_false_iff in Hhit.
    rewrite (CompileActivity_too_few db package_id package_name activity_name version
               params s activity Hshort Hact Hhit).
    now left.
Qed.

End OneActivity.

(** *** The loops *)

Lemma for_each_from_any {A} (body : A -> M bool) (l : list A) :
  forall (ret_ : bool) (s : Sys),
    for_each body l false s
    = match for_each body l ret_ s with
      | Returned _ s' => Returned false s'
      | Stopped why s' => Stopped why s'
      end.
Proof.
  induction l as [|x l IH]; intros ret_ s; cbn [for_each].
  - reflexivity.
  - unfold bind. destruct (body x s) as [ok s1|why s1]; [|reflexivity].
    rewrite Tauto.if_same. apply IH.
Qed.

Lemma for_each_app {A} (body : A -> M bool) (l1 l2 : list A) :
  forall (ret_ : bool) (s : Sys),
    for_each body (l1 ++ l2) ret_ s
    = bind (for_each body l1 ret_) (for_each body l2) s.
Proof.
  induction l1 as [|x l1 IH]; intros ret_ s; cbn [for_each app].
  - reflexivity.
  - rewrite bind_bind. destruct (body x s) as [ok s1|why s1] eqn:Hb.
    + rewrite !(bind_Returned _ _ _ _ _ Hb). apply IH.
    + now rewrite !(bind_Stopped _ _ _ _ _ Hb).
Qed.

(** X19.  The aggregating loops of [CompilePackage] and
    [CompileAppsOnDevice] do not stop at a failure.  Once the result is
    [false] the loop runs exactly what it would have run otherwise and leaves
    the same process state; only the result stays [false].  A loop over two
    lists one after the other is the loop over the first followed by the loop
    over the second, started with the first one's result. *)
Theorem for_each_continues_after_failure {A} (body : A -> M bool) (l1 l2 : list A)
    (s : Sys) :
  for_each body l1 false s
  = match for_each body l1 true s with
    | Returned _ s' => Returned false s'
    | Stopped why s' => Stopped why s'
    end
  /\ forall ret_,
       for_each body (l1 ++ l2) ret_ s
       = bind (for_each body l1 ret_) (for_each body l2) s.
Proof.
  split; [apply for_each_from_any|]. intros ret_. apply for_each_app.
Qed.

(** X20.  [CompilePackage] for a package that is not in the store returns
    failure and only logs the error; for a package without activities it
    returns success and changes nothing. *)
Theorem CompilePackage_edges (db : DbHandle) (package_name : string) (version : Z)
    (params : ControllerParameters) (s : Sys) :
  match PackageModel_SelectByNameAndVersion db package_name version (world s) with
  | None =>
      CompilePackage db package_name version params s
      = Returned false (logged s [(ERROR, CannotFindPackage package_name version)])
  | Some package =>
      ActivityModel_SelectByPackageId db (PackageModel.id package) (world s) = [] ->
      CompilePackage db package_name version params s = Returned true s
  end.
Proof.
  unfold CompilePackage. step.
  destruct (PackageModel_SelectByNameAndVersion db package_name version (world s))
    as [package|].
  - intros Hnone. step. now rewrite Hnone.
  - now do 2 step.
Qed.

(** X21.  A device-wide pass over a store without packages returns success,
    with the counter at 0 and the time of the pass recorded; it makes no
    call and logs nothing. *)
Theorem CompileAppsOnDevice_empty_store (db : DbHandle) (params : ControllerParameters)
    (s : Sys) :
  PackageModel_SelectAll db (world s) = [] ->
  CompileAppsOnDevice db params s
  = Returned true (with_job s (mkJob (time (world s)) 0)).
Proof.
  intros Hnone. unfold CompileAppsOnDevice. do 2 step. sys_fields. rewrite Hnone.
  cbn [for_each]. now do 4 step.
Qed.

(** X22.  A device-wide pass that does not return, because the process ends
    at a fork, leaves [last_run_ns_] as it was before the pass. *)
Theorem CompileAppsOnDevice_stopped_is_not_stamped (db : DbHandle)
    (params : ControllerParameters) (s s' : Sys) (why : Stop) :
  CompileAppsOnDevice db params s = Stopped why s' ->
  last_run_ns_ (last_job_info_ s') = last_run_ns_ (last_job_info_ s).
Proof.
  unfold CompileAppsOnDevice. do 2 step. sys_fields.
  set (s0 := with_job s (mkJob (last_run_ns_ (last_job_info_ s)) 0)).
  set (loop := for_each
                 (fun package =>
                    CompilePackage db (PackageModel.name package)
                      (PackageModel.version package) params)
                 (PackageModel_SelectAll db (world s)) true).
  assert (Hcount : keeps_count loop)
    by (apply keeps_count_for_each; intros package; apply keeps_count_CompilePackage).
  destruct (Hcount s0 0 eq_refl) as (evs & _ & _ & Hl).
  unfold bind at 1. destruct (loop s0) as [b s1|why1 s1] eqn:Hloop; sys_fields.
  - do 3 step. discriminate.
  - intros [= <- <-]. exact Hl.
Qed.

(** *** The report *)

Lemma only_logs_errors_ret {A} (a : A) : only_logs_errors (ret a).
Proof. intros s. exists a, []. rewrite logged_nil. now split. Qed.

Lemma only_logs_errors_query {A} (q : World -> A) : only_logs_errors (query q).
Proof. intros s. exists (q (world s)), []. rewrite logged_nil. now split. Qed.

Lemma only_logs_errors_get_job : only_logs_errors get_job.
Proof. intros s. exists (last_job_info_ s), []. rewrite logged_nil. now split. Qed.

Lemma only_logs_errors_bind {A B} (m : M A) (k : A -> M B) :
  only_logs_errors m -> (forall a, only_logs_errors (k a)) -> only_logs_errors (bind m k).
Proof.
  intros Hm Hk s. destruct (Hm s) as (a & e1 & Hma & He1).
  destruct (Hk a (logged s e1)) as (b & e2 & Hkb & He2).
  exists b, (e1 ++ e2). rewrite (bind_Returned m k s _ a Hma), Hkb, logged_logged.
  split; [reflexivity|]. apply Forall_app. now split.
Qed.

Lemma only_logs_errors_option {A B} (o : option A) (m1 : A -> M B) (m2 : M B) :
  (forall a, only_logs_errors (m1 a)) -> only_logs_errors m2 ->
  only_logs_errors (match o with Some a => m1 a | None => m2 end).
Proof. now destruct o. Qed.

Lemma only_logs_errors_GetPerfettoTraceInfo (db : DbHandle)
    (histories : list AppLaunchHistoryModel.t) :
  only_logs_errors (GetPerfettoTraceInfo db histories).
Proof.
  intros s. eexists _, _. unfold GetPerfettoTraceInfo.
  rewrite GetPerfettoTraceInfo_loop_spec. split; [reflexivity|].
  apply trace_errors_are_errors.
Qed.

Lemma only_logs_errors_print_each {A} (body : A -> M (list string)) (l : list A) :
  (forall x, only_logs_errors (body x)) -> only_logs_errors (print_each body l).
Proof.
  intros Hbody. induction l as [|x l IH]; cbn [print_each].
  - apply only_logs_errors_ret.
  - apply only_logs_errors_bind; [apply Hbody|]. intros lines.
    apply only_logs_errors_bind; [apply IH|]. intros more. apply only_logs_errors_ret.
Qed.

Create HintDb reads.
#[local] Hint Resolve only_logs_errors_ret only_logs_errors_query only_logs_errors_get_job
  only_logs_errors_bind only_logs_errors_option only_logs_errors_GetPerfettoTraceInfo
  only_logs_errors_print_each : reads.

Lemma only_logs_errors_DumpAllPackages (db : DbHandle) :
  only_logs_errors (DumpAllPackages db).
Proof.
  unfold DumpAllPackages, DumpPackage, DumpPackageActivity. auto 30 with reads.
Qed.

(** X23.  The controller's [Dump] reads and prints.  It always returns, it
    leaves the store, the job record and the mutex as it found them and makes
    no call; the only trace it leaves is in the log, where
    [GetPerfettoTraceInfo] reports, as errors, the histories without a raw
    trace or without a timestamp. *)
Theorem Dump_only_logs_errors (db : DbHandle) (mutex : Mutex) (s : Sys) :
  exists lines entries,
    Dump db mutex s = Returned (lines, mutex) (logged s entries)
    /\ Forall (fun entry => entry.1 = ERROR) entries.
Proof.
  destruct (only_logs_errors_DumpAllPackages db s) as (package_lines & entries & Hall & He).
  unfold Dump. destruct mutex; cbn [try_lock fst snd negb unlock];
    step; rewrite (bind_Returned _ _ _ _ _ Hall); step;
    eexists _, entries; (split; [reflexivity | exact He]).
Qed.

End ControllerMore.

(** ** More scenarios on the test platform *)

(** [Fork] answers 0: this process is the child, and [Execve] replaces it. *)
Lemma StartViaFork_in_child_witness :
  let s := Controller.demo_sys (Controller.demo_world 3 [] [0] []) in
  let params := Controller.CompilerForkParameters_new [] "out.pb"
                  (Controller.demo_params false 3) in
  exists s',
    Controller.StartViaFork params s = Controller.Stopped Controller.ImageReplaced s'
    /\ Controller.calls s'
       = [Controller.CallExecve Controller.kCommandFileName
            ["--output-proto"; "out.pb"]; Controller.CallFork].
Proof.
  intros s params.
  destruct (@StartViaFork_in_child Controller.fake_platform params s
              ltac:(vm_compute; discriminate) ltac:(vm_compute; discriminate))
    as (s' & Hrun & Hcalls & _).
  exists s'. split; [exact Hrun | exact Hcalls].
Defined.

(** The directory of the output file cannot be made. *)
Lemma CompileActivity_mkdir_failure_witness :
  let w := Controller.mkFake
             [Controller.PackageModel.mk 1 "pkg" 7] [Controller.ActivityModel.mk 10 "Main" 1]
             Controller.demo_histories Controller.demo_raw_traces [] [] [42] [0]
             false true 1234 in
  let s := Controller.demo_sys w in
  exists s',
    Controller.CompileActivity tt 1 "pkg" "Main" 7 (Controller.demo_params false 3) s
    = Controller.Returned false s'
    /\ Controller.calls s' = [Controller.CallMkdirWithParents Controller.demo_file_path]
    /\ Controller.activities_last_compiled_ (Controller.last_job_info_ s') = 6.
Proof.
  intros w s.
  destruct (@CompileActivity_mkdir_failure Controller.fake_platform tt 1 "pkg" "Main" 7
              (Controller.demo_params false 3) s (Controller.ActivityModel.mk 10 "Main" 1)
              eq_refl eq_refl eq_refl)
    as (s' & Hrun & Hcalls & _ & Hcount).
  exists s'. split; [exact Hrun|]. split; [exact Hcalls | exact Hcount].
Defined.

(** [Fork] fails. *)
Lemma CompileActivity_fork_failure_witness :
  let s := Controller.demo_sys (Controller.demo_world 3 [] [-1] []) in
  exists s',
    Controller.CompileActivity tt 1 "pkg" "Main" 7 (Controller.demo_params false 3) s
    = Controller.Stopped Controller.FatalLog s'
    /\ Controller.calls s'
       = [Controller.CallFork; Controller.CallMkdirWithParents Controller.demo_file_path].
Proof.
  intros s.
  destruct (@CompileActivity_fork_failure Controller.fake_platform tt 1 "pkg" "Main" 7
              (Controller.demo_params false 3) s (Controller.ActivityModel.mk 10 "Main" 1)
              eq_refl eq_refl eq_refl eq_refl)
    as (s' & Hrun & Hcalls & _).
  exists s'. split; [exact Hrun | exact Hcalls].
Defined.

(** A package without activities. *)
Lemma CompilePackage_edges_witness :
  let w := Controller.mkFake [Controller.PackageModel.mk 1 "pkg" 7] [] [] [] [] [] [] []
             true true 1234 in
  Controller.CompilePackage tt "pkg" 7 (Controller.demo_params false 3)
    (Controller.demo_sys w)
  = Controller.Returned true (Controller.demo_sys w).
Proof.
  intros w.
  exact (@CompilePackage_edges Controller.fake_platform tt "pkg" 7
           (Controller.demo_params false 3) (Controller.demo_sys w) eq_refl).
Defined.

(** A store without packages. *)
Lemma CompileAppsOnDevice_empty_store_witness :
  let w := Controller.mkFake [] [] [] [] [] [] [] [] true true 1234 in
  Controller.CompileAppsOnDevice tt (Controller.demo_params false 3)
    (Controller.demo_sys w)
  = Controller.Returned true
      (Controller.with_job (Controller.demo_sys w) (Controller.mkJob 1234 0)).
Proof.
  intros w.
  exact (@CompileAppsOnDevice_empty_store Controller.fake_platform tt
           (Controller.demo_params false 3) (Controller.demo_sys w) eq_refl).
Defined.

(** A pass whose only attempt dies on a failed [Fork]. *)
Lemma CompileAppsOnDevice_stopped_is_not_stamped_witness :
  let s := Controller.demo_sys (Controller.demo_world 3 [] [-1] []) in
  exists s',
    Controller.CompileAppsOnDevice tt (Controller.demo_params false 3) s
    = Controller.Stopped Controller.FatalLog s'
    /\ Controller.last_run_ns_ (Controller.last_job_info_ s') = 0.
Proof.
  intros s. eexists.
  assert (Hr : Controller.CompileAppsOnDevice tt (Controller.demo_params false 3) s
               = Controller.Stopped Controller.FatalLog _) by (vm_compute; reflexivity).
  split; [exact Hr|].
  exact (@CompileAppsOnDevice_stopped_is_not_stamped Controller.fake_platform tt
           (Controller.demo_params false 3) s _ _ Hr).
Defined.
